(** * tg_monitoring_bot: price resolution and threshold notification

    A shallow embedding of [src/price_fetcher.py] (class [PriceFetcher]) and
    of [src/bot.py] (class [TokenMonitorBot]), and the properties of the
    price resolver, the threshold tracker and the monitor loop.

    Conventions of the embedding.
    - A Python [float] is the rational number it denotes ([Q]); the code
      only converts and compares prices, and on finite floats [<=], [<],
      [>=], [>] and [!=] are the order and equality of the rationals.
      Infinities and NaN are outside the model.
    - A Python exception is a value of [exn]; code that can raise returns a
      [result].
    - Effects are logged: the resolver records every URL it requests, the
      monitor loop every action it performs, cycle by cycle.
    - [print] calls (diagnostics on stdout) are not modelled. *)

From Stdlib Require Import QArith Lqa ZArith Ascii String List Bool.
From stdpp Require Import gmap strings list fin_maps.

Open Scope Q_scope.

(** ** Exceptions and results *)

(** What [requests.get] raises. *)
Inductive request_error : Type :=
| SSLError            (* requests.exceptions.SSLError *)
| ConnectionError     (* refused, reset, unresolved host *)
| Timeout.            (* no answer within the timeout of 10 seconds *)

Inductive exn : Type :=
| TypeError
| ValueError
| KeyError
| IndexError
| AttributeError
| JSONDecodeError     (* requests.exceptions.JSONDecodeError, a ValueError *)
| RequestException (kind : request_error)
| TelegramError       (* raised by bot.send_message *)
| CancelledError.     (* asyncio.CancelledError, not a subclass of Exception *)

Inductive result (A : Type) : Type :=
| Ok (a : A)
| Raise (e : exn).
Arguments Ok {A} a.
Arguments Raise {A} e.

#[global] Instance result_ret : MRet result := fun A a => Ok a.
#[global] Instance result_bind : MBind result := fun A B f m =>
  match m with
  | Ok a => f a
  | Raise e => Raise e
  end.

(** [try: body except (e1, e2, ...): handler]: [catches e] says whether the
    except clause names the class of [e]. *)
Definition try_except {A} (body : result A) (catches : exn -> bool)
    (handler : exn -> result A) : result A :=
  match body with
  | Ok a => Ok a
  | Raise e => if catches e then handler e else Raise e
  end.

(** [except Exception] catches every modelled exception but
    [asyncio.CancelledError], which derives from [BaseException]. *)
Definition Exception (e : exn) : bool :=
  match e with
  | CancelledError => false
  | _ => true
  end.

(** A bare [except:]. *)
Definition BaseException : exn -> bool := fun _ => true.

(** A computation that logs events of type [E] and may raise. The log is
    kept when an exception propagates. *)
Definition Eff (E A : Type) : Type := list E * result A.

#[global] Instance eff_ret {E} : MRet (Eff E) := fun A a => ([], Ok a).
#[global] Instance eff_bind {E} : MBind (Eff E) := fun A B f m =>
  match m with
  | (log, Ok a) => let '(log', r) := f a in (log ++ log', r)
  | (log, Raise e) => (log, Raise e)
  end.

Definition tell {E} (e : E) : Eff E unit := ([e], Ok tt).
Definition throw {E A} (e : exn) : Eff E A := ([], Raise e).
Definition lift {E A} (r : result A) : Eff E A := ([], r).

Definition eff_try_except {E A} (body : Eff E A) (catches : exn -> bool)
    (handler : exn -> Eff E A) : Eff E A :=
  match body with
  | (log, Ok a) => (log, Ok a)
  | (log, Raise e) =>
      if catches e then let '(log', r) := handler e in (log ++ log', r)
      else (log, Raise e)
  end.

(** ** Floats *)

Definition float : Type := Q.

Declare Scope py_scope.
Delimit Scope py_scope with py.
Notation "x <=? y" := (Qle_bool x y) (at level 70, no associativity) : py_scope.
Notation "x >=? y" := (Qle_bool y x) (at level 70, no associativity) : py_scope.
Notation "x <? y" := (negb (Qle_bool y x)) (at level 70, no associativity) : py_scope.
Notation "x >? y" := (negb (Qle_bool x y)) (at level 70, no associativity) : py_scope.
Notation "x !=? y" := (negb (Qeq_bool x y)) (at level 70, no associativity) : py_scope.

(** ** JSON values, as [response.json()] and [json.load] return them *)

#[warnings="-register-all"]
Inductive json : Type :=
| JNull                                   (* None *)
| JBool (b : bool)                        (* True / False *)
| JNum (q : Q)                            (* int or float *)
| JStr (s : string)                       (* str *)
| JArr (items : list json)                (* list *)
| JObj (fields : list (string * json)).   (* dict, keys distinct, in order *)

Module Py.

(** [d[key]] for a dict given by its items. *)
Fixpoint assoc (key : string) (fields : list (string * json)) : option json :=
  match fields with
  | [] => None
  | (k, v) :: rest => if String.eqb k key then Some v else assoc key rest
  end.

(** [key == item] for a [str] key: only an equal string is equal. *)
Definition str_eq (key : string) (item : json) : bool :=
  match item with
  | JStr s => String.eqb s key
  | _ => false
  end.

(** [key in v] *)
Definition contains (key : string) (v : json) : result bool :=
  match v with
  | JObj fields => Ok (bool_decide (is_Some (assoc key fields)))
  | JArr items => Ok (existsb (str_eq key) items)
  | JStr s => Ok (bool_decide (is_Some (String.index 0 key s)))
  | JNull | JBool _ | JNum _ => Raise TypeError
  end.

(** [v[key]] for a [str] key *)
Definition getitem (v : json) (key : string) : result json :=
  match v with
  | JObj fields =>
      match assoc key fields with
      | Some x => Ok x
      | None => Raise KeyError
      end
  | _ => Raise TypeError
  end.

(** [v[0]] *)
Definition first (v : json) : result json :=
  match v with
  | JArr (x :: _) => Ok x
  | JArr [] => Raise IndexError
  | JStr (String c _) => Ok (JStr (String c EmptyString))
  | JStr EmptyString => Raise IndexError
  | JObj _ => Raise KeyError
  | JNull | JBool _ | JNum _ => Raise TypeError
  end.

(** [len(v)] *)
Definition len (v : json) : result nat :=
  match v with
  | JObj fields => Ok (length fields)
  | JArr items => Ok (length items)
  | JStr s => Ok (String.length s)
  | JNull | JBool _ | JNum _ => Raise TypeError
  end.

(** [v.get(key, default)]: only a dict has the method. *)
Definition get (v : json) (key : string) (dflt : json) : result json :=
  match v with
  | JObj fields => Ok (default dflt (assoc key fields))
  | _ => Raise AttributeError
  end.

Definition is_dict (v : json) : bool :=
  match v with JObj _ => true | _ => false end.

Definition is_list (v : json) : bool :=
  match v with JArr _ => true | _ => false end.

(** Truth value, as [or] and [if] test it. *)
Definition truthy (v : json) : bool :=
  match v with
  | JNull => false
  | JBool b => b
  | JNum q => negb (Qeq_bool q 0)
  | JStr s => negb (String.eqb s "")
  | JArr items => negb (bool_decide (items = []))
  | JObj fields => negb (bool_decide (fields = []))
  end.

(** [a or b] *)
Definition or_ (a b : json) : json := if truthy a then a else b.

Fixpoint chars (s : string) : list json :=
  match s with
  | EmptyString => []
  | String c rest => JStr (String c EmptyString) :: chars rest
  end.

(** The items [for x in v] visits. *)
Definition iter (v : json) : result (list json) :=
  match v with
  | JArr items => Ok items
  | JObj fields => Ok (map (fun kv => JStr (fst kv)) fields)
  | JStr s => Ok (chars s)
  | JNull | JBool _ | JNum _ => Raise TypeError
  end.

(** [[f(x) for x in items]], stopping at the first exception. *)
Fixpoint traverse {A B} (f : A -> result B) (items : list A) : result (list B) :=
  match items with
  | [] => Ok []
  | x :: rest => y ← f x; ys ← traverse f rest; Ok (y :: ys)
  end.

(** [sorted(items, key=..., reverse=True)] on items paired with their keys:
    descending, and stable (items of equal key keep their order). *)
Fixpoint insert_desc {A} (k : float) (x : A) (sorted : list (float * A))
    : list (float * A) :=
  match sorted with
  | [] => [(k, x)]
  | (k', y) :: rest =>
      if (k' >? k)%py then (k', y) :: insert_desc k x rest
      else (k, x) :: (k', y) :: rest
  end.

Definition sorted_desc {A} (keyed : list (float * A)) : list A :=
  map snd (foldr (fun kx acc => insert_desc (fst kx) (snd kx) acc) [] keyed).

End Py.

(** ** Strings *)

Definition lower_ascii (c : ascii) : ascii :=
  let n := nat_of_ascii c in
  if (65 <=? n)%nat && (n <=? 90)%nat then ascii_of_nat (n + 32) else c.

(** [s.lower()], on ASCII text. *)
Fixpoint lower (s : string) : string :=
  match s with
  | EmptyString => EmptyString
  | String c rest => String (lower_ascii c) (lower rest)
  end.

(** ** The network *)

(** What [requests.get(url, headers=..., timeout=10)] does: it raises
    (TLS failure, refused connection, timeout), or it returns a response with
    a status code and a body; [body = None] is a body that is not JSON, on
    which [response.json()] raises. *)
Inductive http_result : Type :=
| RequestFailed (kind : request_error)
| Response (status_code : Z) (body : option json).

Definition response_json (body : option json) : result json :=
  match body with
  | Some data => Ok data
  | None => Raise JSONDecodeError
  end.

(** * price_fetcher.py: class PriceFetcher *)

Section PriceFetcher.

(** [float(s)] on a [str]: the float it reads, [None] for [ValueError]. *)
Variable float_of_string : string -> option float.

(** The state of the upstream services during one resolution. *)
Variable net : string -> http_result.

(** The resolver logs the URLs it requests. *)
Definition requests_get (url : string) : Eff string (Z * option json) :=
  _ ← tell url;
  match net url with
  | RequestFailed kind => throw (RequestException kind)
  | Response status_code body => mret (status_code, body)
  end.

(** [float(v)] *)
Definition float_ (v : json) : result float :=
  match v with
  | JNum q => Ok q
  | JBool b => Ok (if b then 1 else 0)
  | JStr s =>
      match float_of_string s with
      | Some q => Ok q
      | None => Raise ValueError
      end
  | JNull | JArr _ | JObj _ => Raise TypeError
  end.

(** [if key in obj: return float(obj[key])], for each key in turn. *)
Fixpoint first_field (obj : json) (keys : list string) : result (option float) :=
  match keys with
  | [] => Ok None
  | key :: rest =>
      present ← Py.contains key obj;
      if (present : bool) then
        v ← Py.getitem obj key; p ← float_ v; Ok (Some p)
      else first_field obj rest
  end.

(** A probe that returned leaves the function; otherwise the next one runs. *)
Definition otherwise (probe next : result (option float)) : result (option float) :=
  r ← probe;
  match r with
  | Some price => Ok (Some price)
  | None => next
  end.

(** [key in data and isinstance(data[key], cls)] *)
Definition has_instance (data : json) (key : string) (cls : json -> bool) : result bool :=
  present ← Py.contains key data;
  if (present : bool) then v ← Py.getitem data key; Ok (cls v) else Ok false.

Definition extract_catches (e : exn) : bool :=
  match e with
  | ValueError | JSONDecodeError | KeyError | TypeError => true
  | _ => false
  end.

(** [if key in data and isinstance(data[key], dict):] and, inside it, the
    fields of [data[key]] in turn. *)
Definition nested_fields (data : json) (key : string) (keys : list string)
    : result (option float) :=
  nested ← has_instance data key Py.is_dict;
  if (nested : bool) then
    obj ← Py.getitem data key;
    first_field obj keys
  else Ok None.

(** [if 'pairs' in data and isinstance(data['pairs'], list) and
    len(data['pairs']) > 0:] and, inside it, [pair = data['pairs'][0]] and
    its fields. *)
Definition first_pair (data : json) : result (option float) :=
  listed ← has_instance data "pairs" Py.is_list;
  nonempty ← (if (listed : bool) then
                pairs ← Py.getitem data "pairs";
                n ← Py.len pairs; Ok (0 <? n)%nat
              else Ok false);
  if (nonempty : bool) then
    pairs ← Py.getitem data "pairs";
    pair0 ← Py.first pairs;
    first_field pair0 ["priceUsd"; "price"]
  else Ok None.

Definition _extract_price_from_response (data : json) : result (option float) :=
  try_except
    (otherwise
       (* Try nested data.price *)
       (nested_fields data "data" ["price"; "priceUSD"; "priceUsd"])
    (otherwise
       (* Try direct price fields *)
       (first_field data ["price"; "priceUSD"; "priceUsd"])
    (otherwise
       (* Try result.price *)
       (nested_fields data "result" ["price"; "priceUSD"])
       (* Try pairs array (DexScreener format) *)
       (first_pair data))))
    extract_catches
    (fun _ => Ok None).

(** Both [except] clauses of [_fetch_from_jupiter] (SSLError, then
    Exception) fall through to [return None]. *)
Definition _fetch_from_jupiter (address : string) : Eff string (option float) :=
  eff_try_except
    ('(status_code, body) ← requests_get ("https://price.jup.ag/v4/price?ids=" +:+ address);
     if (status_code =? 200)%Z then
       lift
         (data ← response_json body;
          listed ← (present ← Py.contains "data" data;
                    if (present : bool) then
                      d ← Py.getitem data "data"; Py.contains address d
                    else Ok false);
          if (listed : bool) then
            d ← Py.getitem data "data";
            token_data ← Py.getitem d address;
            first_field token_data ["price"]
          else Ok None)
     else mret None)
    Exception
    (fun _ => mret None).

Definition chain_map : list (string * string) :=
  [("solana", "solana"); ("ethereum", "ethereum"); ("bsc", "bsc");
   ("polygon", "polygon"); ("arbitrum", "arbitrum"); ("optimism", "optimism");
   ("avalanche", "avalanche"); ("sui", "sui"); ("evm", "ethereum")].

(** [chain_map.get(key, dflt)] *)
Fixpoint chain_map_get (key : string) (m : list (string * string)) (dflt : string)
    : string :=
  match m with
  | [] => dflt
  | (k, v) :: rest => if String.eqb k key then v else chain_map_get key rest dflt
  end.

(** The sort key [float(x.get('liquidity', {}).get('usd', 0) or 0)]. *)
Definition liquidity_usd (x : json) : result float :=
  liquidity ← Py.get x "liquidity" (JObj []);
  usd ← Py.get liquidity "usd" (JNum 0);
  float_ (Py.or_ usd (JNum 0)).

Definition _fetch_from_dexscreener (address chain : string) : Eff string (option float) :=
  eff_try_except
    (let chain_id := chain_map_get (lower chain) chain_map (lower chain) in
     '(status_code, body) ← requests_get ("https://api.dexscreener.com/latest/dex/tokens/" +:+ address);
     if (status_code =? 200)%Z then
       lift
         (data ← response_json body;
          nonempty ← (present ← Py.contains "pairs" data;
                      if (present : bool) then
                        ps ← Py.getitem data "pairs";
                        n ← Py.len ps; Ok (0 <? n)%nat
                      else Ok false);
          if (nonempty : bool) then
            (* Get the pair with highest liquidity *)
            ps ← Py.getitem data "pairs";
            items ← Py.iter ps;
            keys ← Py.traverse liquidity_usd items;
            match Py.sorted_desc (zip keys items) with
            | pair0 :: _ =>
                has_usd ← Py.contains "priceUsd" pair0;
                if (has_usd : bool) then
                  v ← Py.getitem pair0 "priceUsd"; p ← float_ v; Ok (Some p)
                else
                  has_native ← Py.contains "priceNative" pair0;
                  if (has_native : bool) then
                    v ← Py.get pair0 "priceUsd" (JNum 0); p ← float_ v; Ok (Some p)
                  else Ok None
            | [] => Ok None
            end
          else Ok None)
     else mret None)
    Exception
    (fun _ => mret None).

Definition _fetch_from_birdeye (address : string) : Eff string (option float) :=
  eff_try_except
    ('(status_code, body) ← requests_get ("https://public-api.birdeye.so/v1/token/price?address=" +:+ address);
     if (status_code =? 200)%Z then
       lift
         (data ← response_json body;
          valued ← (present ← Py.contains "data" data;
                    if (present : bool) then
                      d ← Py.getitem data "data"; Py.contains "value" d
                    else Ok false);
          if (valued : bool) then
            d ← Py.getitem data "data";
            v ← Py.getitem d "value"; p ← float_ v; Ok (Some p)
          else Ok None)
     else mret None)
    Exception
    (fun _ => mret None).

(** The body of [for url in endpoints], with its own [try] and bare
    [except: continue]. *)
Fixpoint dextools_endpoints (endpoints : list string) : Eff string (option float) :=
  match endpoints with
  | [] => mret None
  | url :: rest =>
      found ← eff_try_except
                ('(status_code, body) ← requests_get url;
                 if (status_code =? 200)%Z then
                   lift (data ← response_json body; _extract_price_from_response data)
                 else mret None)
                BaseException
                (fun _ => mret None);
      match found with
      | Some price => mret (Some price)
      | None => dextools_endpoints rest
      end
  end.

Definition _fetch_from_dextools (address chain : string) : Eff string (option float) :=
  eff_try_except
    (dextools_endpoints
       ["https://www.dextools.io/shared/data/pair?address=" +:+ address +:+ "&chain=" +:+ chain;
        "https://api.dextools.io/v1/token/" +:+ chain +:+ "/" +:+ address])
    Exception
    (fun _ => mret None).

(** [price = first; if price is not None: return price], then the rest. *)
Definition or_next (first next : Eff string (option float)) : Eff string (option float) :=
  price ← first;
  match price with
  | Some p => mret (Some p)
  | None => next
  end.

Definition _fetch_solana_price (address : string) : Eff string (option float) :=
  or_next (_fetch_from_jupiter address)
 (or_next (_fetch_from_dexscreener address "solana")
 (or_next (_fetch_from_dextools address "solana")
 (or_next (_fetch_from_birdeye address)
          (mret None)))).

Definition _fetch_evm_price (address chain : string) : Eff string (option float) :=
  or_next (_fetch_from_dexscreener address chain)
 (or_next (_fetch_from_dextools address chain)
          (mret None)).

Definition _fetch_sui_price (address : string) : Eff string (option float) :=
  or_next (_fetch_from_dexscreener address "sui")
 (or_next (_fetch_from_dextools address "sui")
          (mret None)).

Definition get_price (token_address chain : string) : Eff string (option float) :=
  eff_try_except
    (let chain := lower chain in
     if String.eqb chain "solana" then _fetch_solana_price token_address
     else if String.eqb chain "sui" then _fetch_sui_price token_address
     else _fetch_evm_price token_address chain)
    Exception
    (fun _ => mret None).

End PriceFetcher.

(** * bot.py: class TokenMonitorBot *)

(** ** The two JSON files *)

(** An entry of token_mapping.json. *)
Record token_info : Type := {
  address : string;
  chain : string
}.

(** An entry of monitoring.json. [handle_message] writes the three keys; the
    monitor loop reads 'low' and 'high' with [config.get(key, 0)], so a key
    may be absent. *)
Record config_entry : Type := {
  cfg_low : option float;
  cfg_high : option float;
  cfg_chat_id : option Z
}.

(** A file on disk: [None] when it is missing or does not decode, and
    [load_token_mapping] / [load_monitoring_config] then return [{}]. *)
Definition load_token_mapping (file : option (gmap string token_info))
    : gmap string token_info :=
  default ∅ file.

Definition load_monitoring_config (file : option (gmap string config_entry))
    : gmap string config_entry :=
  default ∅ file.

(** ** parse_command *)

Definition in_range (lo hi : nat) (c : ascii) : bool :=
  let n := nat_of_ascii c in (lo <=? n)%nat && (n <=? hi)%nat.

(** Whitespace of [str.strip()] and of [\s], on ASCII text. *)
Definition is_space (c : ascii) : bool :=
  in_range 9 13 c || in_range 28 32 c.

(** [\d] *)
Definition is_digit (c : ascii) : bool := in_range 48 57 c.

(** [\w] *)
Definition is_word (c : ascii) : bool :=
  is_digit c || in_range 65 90 c || in_range 97 122 c || Ascii.eqb c "_".

(** [[\d.eE+-]] *)
Definition is_number_char (c : ascii) : bool :=
  is_digit c || Ascii.eqb c "." || Ascii.eqb c "e" || Ascii.eqb c "E"
  || Ascii.eqb c "+" || Ascii.eqb c "-".

Fixpoint lstrip (s : string) : string :=
  match s with
  | String c rest => if is_space c then lstrip rest else s
  | EmptyString => EmptyString
  end.

Fixpoint rstrip (s : string) : string :=
  match s with
  | String c rest =>
      match rstrip rest with
      | EmptyString => if is_space c then EmptyString else String c EmptyString
      | kept => String c kept
      end
  | EmptyString => EmptyString
  end.

(** [text.strip()] *)
Definition strip (s : string) : string := rstrip (lstrip s).

(** The longest prefix of [s] in the class, and what follows it. *)
Fixpoint span (cls : ascii -> bool) (s : string) : string * string :=
  match s with
  | String c rest =>
      if cls c then let '(run, tail) := span cls rest in (String c run, tail)
      else (EmptyString, s)
  | EmptyString => (EmptyString, EmptyString)
  end.

(** [cls+] at the head of [s]. The classes that follow one another in the
    pattern are disjoint, so the greedy run is the only possible match. *)
Definition plus (cls : ascii -> bool) (s : string) : option (string * string) :=
  match span cls s with
  | (EmptyString, _) => None
  | (run, tail) => Some (run, tail)
  end.

(** [re.match(r'^(\w+)\s+([\d.eE+-]+)\s+([\d.eE+-]+)$', text)]: the three
    groups. *)
Definition match_pattern (text : string) : option (string * string * string) :=
  '(g1, r1) ← plus is_word text;
  '(_, r2) ← plus is_space r1;
  '(g2, r3) ← plus is_number_char r2;
  '(_, r4) ← plus is_space r3;
  '(g3, r5) ← plus is_number_char r4;
  match r5 with
  | EmptyString => Some (g1, g2, g3)
  | _ => None
  end.

Record command : Type := {
  token_name : string;
  low : float;
  high : float
}.

Section ParseCommand.

(** [float(s)] on a [str]: the float it reads, [None] for [ValueError]. *)
Variable float_of_string : string -> option float.

Definition parse_command (text : string) : option command :=
  match match_pattern (strip text) with
  | Some (g1, g2, g3) =>
      let token_name := lower g1 in
      match float_of_string g2, float_of_string g3 with
      | Some low, Some high =>
          Some {| token_name := token_name; low := low; high := high |}
      | _, _ => None
      end
  | None => None
  end.

End ParseCommand.

(** ** handle_message *)

(** The texts [update.message.reply_text] is called with. *)
Inductive reply : Type :=
| InvalidFormat                     (* "Invalid format. Please use: ..." *)
| LowMustBeLess                     (* "Error: Low price must be less than high price." *)
| NotInMapping (token_name : string)    (* "Error: Token '...' not found in token mapping. ..." *)
| Monitoring (token_name : string) (low high : float).  (* "Monitoring ...: Low threshold: ... Starting price monitoring..." *)

(** What a handler can see and change: the two files, the task registry
    [self.monitoring_tasks], the tasks the event loop was given, the handles
    on which [cancel()] was called, and the replies sent. A task handle is
    the position of its [create_task] call in [created]. Replies and file
    writes are taken to succeed. *)
Record bot : Type := {
  token_mapping_file : option (gmap string token_info);
  monitoring_file : option (gmap string config_entry);
  monitoring_tasks : gmap string nat;
  created : list (string * Z);
  cancelled : list nat;
  replies : list reply
}.

Definition reply_text (r : reply) (b : bot) : bot :=
  {| token_mapping_file := token_mapping_file b;
     monitoring_file := monitoring_file b;
     monitoring_tasks := monitoring_tasks b;
     created := created b;
     cancelled := cancelled b;
     replies := replies b ++ [r] |}.

Definition save_monitoring_config (config : gmap string config_entry) (b : bot) : bot :=
  {| token_mapping_file := token_mapping_file b;
     monitoring_file := Some config;
     monitoring_tasks := monitoring_tasks b;
     created := created b;
     cancelled := cancelled b;
     replies := replies b |}.

(** [self.monitoring_tasks[token_name].cancel()] *)
Definition cancel (handle : nat) (b : bot) : bot :=
  {| token_mapping_file := token_mapping_file b;
     monitoring_file := monitoring_file b;
     monitoring_tasks := monitoring_tasks b;
     created := created b;
     cancelled := cancelled b ++ [handle];
     replies := replies b |}.

(** [task = asyncio.create_task(self.monitor_token(token_name, chat_id, bot))]
    followed by [self.monitoring_tasks[token_name] = task]. *)
Definition create_task (token_name : string) (chat_id : Z) (b : bot) : bot :=
  {| token_mapping_file := token_mapping_file b;
     monitoring_file := monitoring_file b;
     monitoring_tasks := <[token_name := length (created b)]> (monitoring_tasks b);
     created := created b ++ [(token_name, chat_id)];
     cancelled := cancelled b;
     replies := replies b |}.

Section HandleMessage.

Variable float_of_string : string -> option float.

Definition handle_message (text : string) (chat_id : Z) (b : bot) : bot :=
  (* Parse the command *)
  match parse_command float_of_string text with
  | None => reply_text InvalidFormat b
  | Some parsed =>
      let token_name := token_name parsed in
      let low := low parsed in
      let high := high parsed in
      (* Validate low < high *)
      if (low >=? high)%py then reply_text LowMustBeLess b
      else
        (* Check if token exists in mapping *)
        let token_mapping := load_token_mapping (token_mapping_file b) in
        if bool_decide (token_mapping !! token_name = None) then
          reply_text (NotInMapping token_name) b
        else
          (* Update monitoring configuration *)
          let monitoring_config := load_monitoring_config (monitoring_file b) in
          let monitoring_config :=
            <[token_name := {| cfg_low := Some low; cfg_high := Some high;
                               cfg_chat_id := Some chat_id |}]> monitoring_config in
          let b := save_monitoring_config monitoring_config b in
          (* Stop existing monitoring task for this token if any *)
          let b := match monitoring_tasks b !! token_name with
                   | Some handle => cancel handle b
                   | None => b
                   end in
          (* Start monitoring *)
          let b := reply_text (Monitoring token_name low high) b in
          create_task token_name chat_id b
  end.

End HandleMessage.

(** ** monitor_token *)

(** The texts [bot.send_message] is called with. *)
Inductive message : Type :=
| CurrentPrice (token_name : string) (price : float)  (* "{token_name} current price: ${price:.12f}" *)
| ReachedLow (token_name : string)                    (* "{token_name} reached to low price" *)
| ReachedHigh (token_name : string)                   (* "{token_name} reached to high price" *)
| MonitoringError (token_name : string) (e : exn).    (* "Error monitoring {token_name}: {e}" *)

(** What the loop does, in order. A [SendMessage] in the log is a message
    that was delivered. *)
Inductive action : Type :=
| GetPrice (address chain : string)
| SendMessage (chat_id : Z) (text : message)
| Sleep (seconds : Z)
| LoadConfig.

(** The local variables of [monitor_token] that live across cycles, and
    the entry [self.last_prices[token_name]] (a dict that is written and
    never read, empty when the bot starts). *)
Record monitor_state : Type := {
  low_threshold : float;
  high_threshold : float;
  price_displayed : bool;
  last_price : option float;
  low_notified : bool;
  high_notified : bool;
  last_prices_entry : option float
}.

Definition set_displayed (price : float) (st : monitor_state) : monitor_state :=
  {| low_threshold := low_threshold st; high_threshold := high_threshold st;
     price_displayed := true; last_price := Some price;
     low_notified := low_notified st; high_notified := high_notified st;
     last_prices_entry := last_prices_entry st |}.

Definition set_notified (low_n high_n : bool) (st : monitor_state) : monitor_state :=
  {| low_threshold := low_threshold st; high_threshold := high_threshold st;
     price_displayed := price_displayed st; last_price := last_price st;
     low_notified := low_n; high_notified := high_n;
     last_prices_entry := last_prices_entry st |}.

Definition set_last_price (price : float) (st : monitor_state) : monitor_state :=
  {| low_threshold := low_threshold st; high_threshold := high_threshold st;
     price_displayed := price_displayed st; last_price := Some price;
     low_notified := low_notified st; high_notified := high_notified st;
     last_prices_entry := Some price |}.

Definition set_thresholds (new_low new_high : float) (st : monitor_state) : monitor_state :=
  {| low_threshold := new_low; high_threshold := new_high;
     price_displayed := price_displayed st; last_price := last_price st;
     low_notified := false; high_notified := false;
     last_prices_entry := last_prices_entry st |}.

(** What one cycle of the loop meets: the result of [get_price], whether
    [bot.send_message] delivers a text or raises, whether the task is
    cancelled while it sleeps, and the content of monitoring.json when it is
    read again after the sleep. *)
Record cycle : Type := {
  quote : option float;
  delivers : message -> bool;
  cancel_requested : bool;
  reloaded : option (gmap string config_entry)
}.

(** How the coroutine ended, or [Running] with its state when the cycles
    supplied ran out. *)
Inductive outcome : Type :=
| Unregistered                (* [break]: the entry left monitoring.json *)
| Cancelled                   (* [except asyncio.CancelledError: pass] *)
| Crashed (e : exn)           (* [except Exception as e] *)
| Running (st : monitor_state).

Section MonitorToken.

Variables (token_name : string) (chat_id : Z).

Definition send_message (env : cycle) (text : message) : Eff action unit :=
  if delivers env text then tell (SendMessage chat_id text) else throw TelegramError.

(** [await asyncio.sleep(8)] *)
Definition sleep (env : cycle) : Eff action unit :=
  _ ← tell (Sleep 8);
  if cancel_requested env then throw CancelledError else mret tt.

(** Display price once. *)
Definition display_once (env : cycle) (price : float) (st : monitor_state)
    : Eff action monitor_state :=
  if negb (price_displayed st) then
    _ ← send_message env (CurrentPrice token_name price);
    mret (set_displayed price st)
  else mret st.

(** [last_price is not None and last_price > low_threshold] *)
Definition was_above_low (st : monitor_state) : bool :=
  match last_price st with
  | Some last => (last >? low_threshold st)%py
  | None => false
  end.

(** [last_price is not None and last_price < high_threshold] *)
Definition was_below_high (st : monitor_state) : bool :=
  match last_price st with
  | Some last => (last <? high_threshold st)%py
  | None => false
  end.

(** Check thresholds - only notify when crossing the threshold. *)
Definition check_thresholds (env : cycle) (price : float) (st : monitor_state)
    : Eff action monitor_state :=
  if (price <=? low_threshold st)%py then
    if negb (low_notified st) || was_above_low st then
      _ ← send_message env (ReachedLow token_name);
      mret (set_notified true false st)
    else mret st
  else if (price >=? high_threshold st)%py then
    if negb (high_notified st) || was_below_high st then
      _ ← send_message env (ReachedHigh token_name);
      mret (set_notified false true st)
    else mret st
  else
    (* Price is between thresholds, reset notification states *)
    match last_price st with
    | Some last =>
        if (last <=? low_threshold st)%py && (price >? low_threshold st)%py then
          mret (set_notified false (high_notified st) st)
        else if (last >=? high_threshold st)%py && (price <? high_threshold st)%py then
          mret (set_notified (low_notified st) false st)
        else mret st
    | None => mret st
    end.

(** The body of [if price is not None:]. *)
Definition on_quote (env : cycle) (price : float) (st : monitor_state)
    : Eff action monitor_state :=
  st ← display_once env price st;
  st ← check_thresholds env price st;
  mret (set_last_price price st).

(** After the sleep: [None] is the [break]. *)
Definition reload (env : cycle) (st : monitor_state) : option monitor_state :=
  let monitoring_config := load_monitoring_config (reloaded env) in
  match monitoring_config !! token_name with
  | None => None
  | Some config =>
      let new_low := default 0 (cfg_low config) in
      let new_high := default 0 (cfg_high config) in
      (* Reset notification states if thresholds changed *)
      if (new_low !=? low_threshold st)%py || (new_high !=? high_threshold st)%py then
        Some (set_thresholds new_low new_high st)
      else Some st
  end.

Variable info : token_info.

(** Fetch price, and evaluate it [if price is not None]. *)
Definition evaluate (env : cycle) (st : monitor_state) : Eff action monitor_state :=
  _ ← tell (GetPrice (address info) (chain info));
  match quote env with
  | Some price => on_quote env price st
  | None => mret st
  end.

(** One pass through the body of [while True]. *)
Definition iteration (env : cycle) (st : monitor_state)
    : Eff action (option monitor_state) :=
  st ← evaluate env st;
  _ ← sleep env;
  _ ← tell LoadConfig;
  mret (reload env st).

(** The two [except] clauses around the loop, for an exception raised in
    the cycle [env]. *)
Definition on_exception (env : cycle) (e : exn) : list action * outcome :=
  if Exception e then
    (if delivers env (MonitoringError token_name e)
     then [SendMessage chat_id (MonitoringError token_name e)] else [],
     Crashed e)
  else ([], Cancelled).

(** [while True], run on the cycles supplied; the log has one entry per
    cycle entered. *)
Fixpoint while_true (st : monitor_state) (envs : list cycle)
    : list (list action) * outcome :=
  match envs with
  | [] => ([], Running st)
  | env :: rest =>
      match iteration env st with
      | (log, Ok (Some st')) =>
          let '(logs, out) := while_true st' rest in (log :: logs, out)
      | (log, Ok None) => ([log], Unregistered)
      | (log, Raise e) =>
          let '(log', out) := on_exception env e in ([log ++ log'], out)
      end
  end.

End MonitorToken.

(** The state a loop starts from, given monitoring.json as it then is. *)
Definition initial_state (token_name : string)
    (monitoring_file : option (gmap string config_entry)) : monitor_state :=
  let monitoring_config := load_monitoring_config monitoring_file in
  let config := monitoring_config !! token_name in
  {| low_threshold := default 0 (config ≫= cfg_low);
     high_threshold := default 0 (config ≫= cfg_high);
     price_displayed := false;
     last_price := None;
     low_notified := false;
     high_notified := false;
     last_prices_entry := None |}.

(** [monitor_token(token_name, chat_id, bot)]: [token_mapping[token_name]]
    is outside the [try] and raises [KeyError] to the event loop. *)
Definition monitor_token (token_mapping_file : option (gmap string token_info))
    (monitoring_file : option (gmap string config_entry))
    (token_name : string) (chat_id : Z) (envs : list cycle)
    : result (list (list action) * outcome) :=
  let token_mapping := load_token_mapping token_mapping_file in
  match token_mapping !! token_name with
  | None => Raise KeyError
  | Some token_info =>
      Ok (while_true token_name chat_id token_info
            (initial_state token_name monitoring_file) envs)
  end.

(** ** Reading a run *)

(** The texts delivered in one cycle. *)
Definition sent (log : list action) : list message :=
  flat_map (fun a => match a with SendMessage _ text => [text] | _ => [] end) log.

(** The threshold notifications among them. *)
Definition notifications (log : list action) : list message :=
  flat_map (fun text => match text with
                        | ReachedLow _ | ReachedHigh _ => [text]
                        | _ => []
                        end) (sent log).

(** A cycle in which the resolver returns [price], every message is
    delivered, nobody cancels and monitoring.json still reads [file]. *)
Definition steady (file : option (gmap string config_entry)) (price : float) : cycle :=
  {| quote := Some price;
     delivers := fun _ => true;
     cancel_requested := false;
     reloaded := file |}.

(** The states a loop can be in when a cycle starts. *)
Inductive reachable (token_name : string) (chat_id : Z) (info : token_info)
    : monitor_state -> Prop :=
| reachable_initial file :
    reachable token_name chat_id info (initial_state token_name file)
| reachable_iteration st env log st' :
    reachable token_name chat_id info st ->
    iteration token_name chat_id info env st = (log, Ok (Some st')) ->
    reachable token_name chat_id info st'.

(** ** A reader of decimal literals, for the examples

    It stands for [float] on the strings of the examples: an optional sign,
    digits, and an optional fraction. *)

Fixpoint read_digits (s : string) (value : Z) (count : nat) : Z * nat * string :=
  match s with
  | String c rest =>
      if is_digit c
      then read_digits rest (10 * value + (Z.of_nat (nat_of_ascii c) - 48))%Z (S count)
      else (value, count, s)
  | EmptyString => (value, count, s)
  end.

Definition unsigned_decimal (s : string) : option float :=
  let '(whole, n1, rest) := read_digits s 0%Z 0%nat in
  match rest with
  | EmptyString => if (n1 =? 0)%nat then None else Some (inject_Z whole)
  | String "." fraction =>
      let '(digits, n2, rest') := read_digits fraction 0%Z 0%nat in
      match rest' with
      | EmptyString =>
          if (n1 + n2 =? 0)%nat then None
          else Some (Qmake (whole * 10 ^ Z.of_nat n2 + digits)
                           (Z.to_pos (10 ^ Z.of_nat n2)))
      | _ => None
      end
  | _ => None
  end.

Definition decimal_literal (s : string) : option float :=
  match s with
  | String "-" rest => Qopp <$> unsigned_decimal rest
  | String "+" rest => unsigned_decimal rest
  | _ => unsigned_decimal s
  end.

(** ** The data of the examples *)

(** The band of the README: [kori 0.00237 0.00355]. *)
Definition kori_info : token_info :=
  {| address := "KoRiTokenAddress"; chain := "solana" |}.

Definition kori_tokens : option (gmap string token_info) :=
  Some {[ "kori" := kori_info ]}.

Definition kori_entry : config_entry :=
  {| cfg_low := Some 0.00237; cfg_high := Some 0.00355; cfg_chat_id := Some 7%Z |}.

Definition kori_file : option (gmap string config_entry) :=
  Some {[ "kori" := kori_entry ]}.

(** A bot that knows the token and monitors nothing yet. *)
Definition idle_bot : bot :=
  {| token_mapping_file := kori_tokens;
     monitoring_file := None;
     monitoring_tasks := ∅;
     created := [];
     cancelled := [];
     replies := [] |}.

(** A cycle without a quote. *)
Definition silent (file : option (gmap string config_entry)) : cycle :=
  {| quote := None;
     delivers := fun _ => true;
     cancel_requested := false;
     reloaded := file |}.

(** What DexScreener answers for a token that trades on two chains; the
    pool on Ethereum is the deeper one. *)
Definition bsc_pair : json :=
  JObj [("chainId", JStr "bsc"); ("priceUsd", JStr "0.5");
        ("liquidity", JObj [("usd", JNum 10)])].

Definition ethereum_pair : json :=
  JObj [("chainId", JStr "ethereum"); ("priceUsd", JStr "0.25");
        ("liquidity", JObj [("usd", JNum 1000)])].

Definition two_chains : json :=
  JObj [("schemaVersion", JStr "1.0.0"); ("pairs", JArr [bsc_pair; ethereum_pair])].

(** A pair quoted in the native token only: no 'priceUsd'. *)
Definition native_only : json :=
  JObj [("schemaVersion", JStr "1.0.0");
        ("pairs", JArr [JObj [("chainId", JStr "ethereum"); ("priceNative", JStr "0.5")]])].

(** Upstream services of which only DexScreener answers. *)
Definition dexscreener_only (payload : json) (url : string) : http_result :=
  if String.prefix "https://api.dexscreener.com/" url
  then Response 200 (Some payload)
  else RequestFailed ConnectionError.

(** A payload of every shape [_extract_price_from_response] probes. *)
Definition every_shape (nested top result_ listed : float) : list (string * json) :=
  [("pairs", JArr [JObj [("priceUsd", JNum listed)]]);
   ("result", JObj [("price", JNum result_)]);
   ("price", JNum top);
   ("data", JObj [("price", JNum nested)])].

(** ** Names for what the properties speak of *)

(** The URLs the fetchers request. *)
Definition jupiter_url (address : string) : string :=
  "https://price.jup.ag/v4/price?ids=" +:+ address.

Definition dexscreener_url (address : string) : string :=
  "https://api.dexscreener.com/latest/dex/tokens/" +:+ address.

Definition birdeye_url (address : string) : string :=
  "https://public-api.birdeye.so/v1/token/price?address=" +:+ address.

Definition dextools_urls (address chain : string) : list string :=
  ["https://www.dextools.io/shared/data/pair?address=" +:+ address +:+ "&chain=" +:+ chain;
   "https://api.dextools.io/v1/token/" +:+ chain +:+ "/" +:+ address].

(** The sources of a Solana token, in the order of [_fetch_solana_price]. *)
Definition solana_urls (address : string) : list string :=
  [jupiter_url address; dexscreener_url address]
  ++ dextools_urls address "solana" ++ [birdeye_url address].

(** The sources of a token on [chain], in the order of [_fetch_evm_price]
    and [_fetch_sui_price]. *)
Definition dex_urls (address chain : string) : list string :=
  dexscreener_url address :: dextools_urls address chain.

(** A request that gives a fetcher nothing to read: it raises, or the
    status is not 200, or the body is not JSON. *)
Definition unavailable (r : http_result) : Prop :=
  match r with
  | RequestFailed _ => True
  | Response status_code body => status_code <> 200%Z \/ body = None
  end.

(** Every character of [s] is in the class. *)
Fixpoint all_in (cls : ascii -> bool) (s : string) : bool :=
  match s with
  | EmptyString => true
  | String c rest => cls c && all_in cls rest
  end.

(** Messages handled one after the other, each with the chat it came from. *)
Definition handle_messages (float_of_string : string -> option float)
    (messages : list (string * Z)) (b : bot) : bot :=
  foldl (fun b m => handle_message float_of_string (fst m) (snd m) b) b messages.

(** Whether [handle] is a task created for [token_name] that was never
    cancelled. *)
Definition is_live (token_name : string) (b : bot) (handle : nat) : bool :=
  match created b !! handle with
  | Some (name, _) => String.eqb name token_name && negb (bool_decide (handle ∈ cancelled b))
  | None => false
  end.

(** The tasks that were created for [token_name] and never cancelled. *)
Definition live_tasks (token_name : string) (b : bot) : list nat :=
  List.filter (is_live token_name b) (seq 0 (length (created b))).

(** Every task that was not cancelled is the one the registry holds for its
    symbol. *)
Definition registry_tracks_tasks (b : bot) : Prop :=
  forall handle name chat_id,
    created b !! handle = Some (name, chat_id) ->
    handle ∈ cancelled b \/ monitoring_tasks b !! name = Some handle.

(** Every band in monitoring.json has both thresholds, in order. *)
Definition bands_in_order (file : option (gmap string config_entry)) : Prop :=
  forall name entry,
    load_monitoring_config file !! name = Some entry ->
    exists low high,
      cfg_low entry = Some low /\ cfg_high entry = Some high /\ low < high.

(** The price displays among the texts of a run. *)
Definition displays (logs : list (list action)) : list message :=
  flat_map (fun text => match text with CurrentPrice _ _ => [text] | _ => [] end)
           (sent (concat logs)).

(** Upstream services of which Jupiter quotes the token at 0.00300. *)
Definition jupiter_quotes (address : string) (url : string) : http_result :=
  Response 200
    (Some (JObj [("data", JObj [(address, JObj [("id", JStr address);
                                                ("price", JNum 0.00300)])])])).

(** The keyed list behind [Py.sorted_desc], before the keys are dropped. *)
Definition sorted_keyed {A} (keyed : list (float * A)) : list (float * A) :=
  foldr (fun kx acc => Py.insert_desc (fst kx) (snd kx) acc) [] keyed.

(** A string that does not begin with a character of the class. *)
Definition starts_outside (cls : ascii -> bool) (s : string) : Prop :=
  match s with
  | String c _ => cls c = false
  | EmptyString => True
  end.

(** ** price_command *)

Definition upper_ascii (c : ascii) : ascii :=
  let n := nat_of_ascii c in
  if (97 <=? n)%nat && (n <=? 122)%nat then ascii_of_nat (n - 32) else c.

(** [s.upper()], on ASCII text. *)
Fixpoint upper (s : string) : string :=
  match s with
  | EmptyString => EmptyString
  | String c rest => String (upper_ascii c) (upper rest)
  end.

(** The texts [price_command] replies with, the last two by editing the
    "Fetching" message. *)
Inductive price_text : Type :=
| Usage                                   (* "Usage: /price <token_name> ..." *)
| NotFound (token_name : string)          (* "Error: Token '...' not found in token mapping. ..." *)
| Fetching (token_name : string)          (* "Fetching price for ..." *)
| CurrentQuote (token_name : string) (price : float) (chain : string)
    (address_head address_tail : string)  (* name and chain in upper case, address[:8] and address[-8:] *)
| FetchFailed (token_name chain : string).  (* "Failed to fetch price for ..." *)

Section PriceCommand.

Variable float_of_string : string -> option float.
Variable net : string -> http_result.

(** [price_command] for the arguments [context.args], given
    token_mapping.json: the requests made and the texts sent, in order. *)
Definition price_command (token_mapping_file : option (gmap string token_info))
    (args : list string) : Eff string (list price_text) :=
  match args with
  | [] => mret [Usage]
  | first :: _ =>
      let token_name := lower first in
      (* Check if token exists in mapping *)
      let token_mapping := load_token_mapping token_mapping_file in
      match token_mapping !! token_name with
      | None => mret [NotFound token_name]
      | Some token_info =>
          let address := address token_info in
          let chain := chain token_info in
          (* Fetch price *)
          price ← get_price float_of_string net address chain;
          match price with
          | Some price =>
              mret [Fetching token_name;
                    CurrentQuote (upper token_name) price (upper chain)
                      (String.substring 0 8 address)
                      (String.substring (String.length address - 8) 8 address)]
          | None => mret [Fetching token_name; FetchFailed token_name chain]
          end
      end
  end.

End PriceCommand.

(** ** More data for the examples *)

(** A cycle with a quote in which the notifier delivers nothing. *)
Definition notifier_down (file : option (gmap string config_entry)) (price : float)
    : cycle :=
  {| quote := Some price;
     delivers := fun _ => false;
     cancel_requested := false;
     reloaded := file |}.

(** A cycle without a quote during which the task is cancelled. *)
Definition cancelling (file : option (gmap string config_entry)) : cycle :=
  {| quote := None;
     delivers := fun _ => true;
     cancel_requested := true;
     reloaded := file |}.

(** The state of a loop that displayed a price, notified low at 0.002 and
    runs on the band of the README. *)
Definition latched_low : monitor_state :=
  {| low_threshold := 0.00237; high_threshold := 0.00355;
     price_displayed := true; last_price := Some 0.002;
     low_notified := true; high_notified := false;
     last_prices_entry := Some 0.002 |}.

(** Upstream services of which only Birdeye answers, with the value 0.00300. *)
Definition birdeye_only (address : string) (url : string) : http_result :=
  if String.eqb url (birdeye_url address)
  then Response 200 (Some (JObj [("data", JObj [("value", JNum 0.00300)]);
                                 ("success", JBool true)]))
  else Response 404 None.

(** * Properties *)

(** ** Comparisons of floats *)

Lemma le_true (x y : float) : (x <=? y)%py = true <-> x <= y.
Proof. apply Qle_bool_iff. Qed.

Lemma le_false (x y : float) : (x <=? y)%py = false <-> y < x.
Proof.
  rewrite <- not_true_iff_false, Qle_bool_iff. split; [apply Qnot_le_lt | apply Qlt_not_le].
Qed.

Lemma ne_false (x y : float) : (x !=? y)%py = false <-> x == y.
Proof. rewrite negb_false_iff. apply Qeq_bool_iff. Qed.

Lemma ne_true (x y : float) : (x !=? y)%py = true <-> ~ x == y.
Proof. rewrite negb_true_iff, <- not_true_iff_false, Qeq_bool_iff. reflexivity. Qed.

(** Decide every comparison in the goal from the hypotheses. *)
Ltac compare_floats :=
  repeat match goal with
  | |- context [Qle_bool ?x ?y] =>
      let C := fresh "C" in
      destruct (Qle_bool x y) eqn:C;
      [apply le_true in C | apply le_false in C]; try lra
  | |- context [Qeq_bool ?x ?y] =>
      let C := fresh "C" in
      destruct (Qeq_bool x y) eqn:C;
      [apply Qeq_bool_iff in C | apply Qeq_bool_neq in C]; try lra
  end.

(** Split the code on every test it makes. *)
Ltac split_tests :=
  repeat (match goal with
          | |- context [if ?b then _ else _] => destruct b eqn:?
          | |- context [match last_price ?s with _ => _ end] =>
              destruct (last_price s) eqn:?
          end; simpl).

(** ** The monitor loop *)

Section MonitorLoopProperties.

Variables (token_name : string) (chat_id : Z) (info : token_info).

(** The log of a cycle opens with the single call of [get_price]. *)
Lemma iteration_unfold env st :
  iteration token_name chat_id info env st =
    match evaluate token_name chat_id info env st with
    | (log, Ok st1) =>
        if cancel_requested env then (log ++ [Sleep 8], Raise CancelledError)
        else (log ++ [Sleep 8; LoadConfig], Ok (reload token_name env st1))
    | (log, Raise e) => (log, Raise e)
    end.
Proof.
  unfold iteration.
  destruct (evaluate token_name chat_id info env st) as [log [st1|e]]; simpl; [|done].
  unfold sleep. destruct (cancel_requested env); simpl; done.
Qed.

(** C9. A cycle in which [get_price] returns no quote leaves the state of
    the tracker as it was (last price, both latches, the display flag and
    the thresholds), sends nothing, and goes from the one call of
    [get_price] straight to the sleep of 8 seconds: the log of the cycle
    is that call, the sleep and, unless the task is cancelled meanwhile,
    the reload. *)
Theorem no_quote_skips_cycle env st :
  quote env = None ->
  evaluate token_name chat_id info env st
    = ([GetPrice (address info) (chain info)], Ok st)
  /\ iteration token_name chat_id info env st =
       (if cancel_requested env
        then ([GetPrice (address info) (chain info); Sleep 8], Raise CancelledError)
        else ([GetPrice (address info) (chain info); Sleep 8; LoadConfig],
              Ok (reload token_name env st)))
  /\ sent (fst (iteration token_name chat_id info env st)) = [].
Proof.
  intros Hq.
  assert (He : evaluate token_name chat_id info env st
               = ([GetPrice (address info) (chain info)], Ok st)).
  { unfold evaluate. rewrite Hq. reflexivity. }
  split; [exact He|].
  rewrite iteration_unfold, He.
  destruct (cancel_requested env); simpl; auto.
Qed.

(** What [evaluate] leaves alone: the thresholds. *)
Lemma evaluate_thresholds env st log st1 :
  evaluate token_name chat_id info env st = (log, Ok st1) ->
  low_threshold st1 = low_threshold st /\ high_threshold st1 = high_threshold st.
Proof.
  unfold evaluate, on_quote, display_once, check_thresholds, send_message.
  destruct (quote env) as [price|]; simpl.
  - split_tests; intros [= <- <-]; simpl; auto.
  - intros [= <- <-]; auto.
Qed.

(** Once a quote was evaluated the price is displayed and remembered. *)
Lemma evaluate_quote_displayed env st log st1 price :
  quote env = Some price ->
  evaluate token_name chat_id info env st = (log, Ok st1) ->
  price_displayed st1 = true /\ last_price st1 = Some price.
Proof.
  intros Hq.
  unfold evaluate, on_quote, display_once, check_thresholds, send_message.
  rewrite Hq. destruct (price_displayed st) eqn:Hd; simpl.
  all: split_tests; intros [= <- <-]; simpl; auto.
Qed.

Lemma reload_keeps env st st' :
  reload token_name env st = Some st' ->
  price_displayed st' = price_displayed st /\ last_price st' = last_price st.
Proof.
  unfold reload.
  destruct (load_monitoring_config (reloaded env) !! token_name) as [config|]; [|done].
  destruct (_ || _); intros [= <-]; auto.
Qed.

(** Until the first quote is displayed there is no last price. *)
Lemma reachable_last_price st :
  reachable token_name chat_id info st ->
  price_displayed st = false -> last_price st = None.
Proof.
  induction 1 as [file|st env log st' Hst IH Hit]; [reflexivity|].
  rewrite iteration_unfold in Hit.
  destruct (evaluate token_name chat_id info env st) as [log1 [st1|e]] eqn:He; [|done].
  destruct (cancel_requested env); [done|].
  injection Hit as _ Hre. apply reload_keeps in Hre as [Hd Hl].
  rewrite Hd, Hl. destruct (quote env) as [price|] eqn:Hq.
  - destruct (evaluate_quote_displayed _ _ _ _ _ Hq He) as [Hd1 _]. congruence.
  - unfold evaluate in He. rewrite Hq in He. injection He as _ <-. exact IH.
Qed.

Lemma send_message_delivered env text :
  delivers env text = true ->
  send_message chat_id env text = ([SendMessage chat_id text], Ok tt).
Proof. unfold send_message. intros ->. reflexivity. Qed.

(** C10. On the first quote of a loop (the price not yet displayed) the
    display block assigns the price to [last_price] before the thresholds
    are checked, and the check runs on that state: it never meets an absent
    last price, its test
    "the last price was beyond the threshold" compares the price with
    itself and is false, and a notification is sent exactly when the price
    is at or beyond a threshold and the latch of that threshold is still
    false. *)
Theorem first_quote_fires_on_latch_only env st price :
  price_displayed st = false ->
  (forall text, delivers env text = true) ->
  display_once token_name chat_id env price st =
    ([SendMessage chat_id (CurrentPrice token_name price)], Ok (set_displayed price st))
  /\ fst (on_quote token_name chat_id env price st)
     = SendMessage chat_id (CurrentPrice token_name price)
         :: fst (check_thresholds token_name chat_id env price (set_displayed price st))
  /\ last_price (set_displayed price st) = Some price
  /\ (price <= low_threshold st -> was_above_low (set_displayed price st) = false)
  /\ (high_threshold st <= price -> was_below_high (set_displayed price st) = false)
  /\ (In (ReachedLow token_name)
         (notifications (fst (on_quote token_name chat_id env price st)))
      <-> price <= low_threshold st /\ low_notified st = false)
  /\ (In (ReachedHigh token_name)
         (notifications (fst (on_quote token_name chat_id env price st)))
      <-> ~ price <= low_threshold st /\ high_threshold st <= price
          /\ high_notified st = false).
Proof.
  intros Hd Hsend.
  assert (Hdisplay : display_once token_name chat_id env price st =
    ([SendMessage chat_id (CurrentPrice token_name price)], Ok (set_displayed price st))).
  { unfold display_once. rewrite Hd. simpl.
    rewrite send_message_delivered by apply Hsend. reflexivity. }
  split; [exact Hdisplay|].
  split.
  { unfold on_quote. rewrite Hdisplay. simpl.
    destruct (check_thresholds _ _ _ _ _) as [log [st1|e]]; simpl;
      rewrite ?app_nil_r; reflexivity. }
  split; [reflexivity|].
  split; [|split].
  - intros Hle. unfold was_above_low. simpl. apply le_true in Hle. rewrite Hle. reflexivity.
  - intros Hle. unfold was_below_high. simpl. apply le_true in Hle. rewrite Hle. reflexivity.
  - unfold on_quote. rewrite Hdisplay. simpl.
    unfold check_thresholds, was_above_low, was_below_high. simpl.
    rewrite !send_message_delivered by apply Hsend.
    destruct (low_notified st), (high_notified st); compare_floats; simpl;
      split; intuition (try discriminate; try lra).
Qed.

(** The low rule on the threshold check alone, for any state. *)
Lemma check_thresholds_low env st price :
  (forall text, delivers env text = true) ->
  price <= low_threshold st ->
  check_thresholds token_name chat_id env price st =
    if negb (low_notified st) || was_above_low st
    then ([SendMessage chat_id (ReachedLow token_name)], Ok (set_notified true false st))
    else ([], Ok st).
Proof.
  intros Hsend Hle. unfold check_thresholds.
  apply le_true in Hle. rewrite Hle.
  destruct (negb (low_notified st) || was_above_low st); [|reflexivity].
  rewrite send_message_delivered by apply Hsend. reflexivity.
Qed.

(** C2. In every evaluation a running loop makes of a price at or below
    the low threshold, "reached low" is sent if and only if [low_notified]
    is false or the previous price was strictly above the threshold; when it
    is sent, the evaluation leaves [low_notified] true and [high_notified]
    false. *)
Theorem low_rule env st price :
  reachable token_name chat_id info st ->
  (forall text, delivers env text = true) ->
  price <= low_threshold st ->
  exists log st',
    on_quote token_name chat_id env price st = (log, Ok st')
    /\ (In (ReachedLow token_name) (notifications log)
        <-> low_notified st = false
            \/ exists previous, last_price st = Some previous
                                /\ low_threshold st < previous)
    /\ (In (ReachedLow token_name) (notifications log)
        -> low_notified st' = true /\ high_notified st' = false).
Proof.
  intros Hreach Hsend Hle.
  pose proof (reachable_last_price st Hreach) as Hinv.
  unfold on_quote, display_once.
  destruct (price_displayed st) eqn:Hd; simpl.
  - rewrite (check_thresholds_low env st price Hsend Hle).
    unfold was_above_low.
    destruct (low_notified st) eqn:Hn; simpl.
    + destruct (last_price st) as [previous|] eqn:Hl.
      * destruct (Qle_bool previous (low_threshold st)) eqn:C; simpl;
          [apply le_true in C | apply le_false in C];
          eexists _, _; (split; [reflexivity|]); simpl.
        -- split; [|tauto]. split; [tauto|].
           intros [?|(q & [= <-] & ?)]; [discriminate|lra].
        -- split; [|auto]. split; [|tauto]. intros _. right. eauto.
      * eexists _, _; (split; [reflexivity|]); simpl.
        split; [|tauto]. split; [tauto|]. intros [?|(q & ? & ?)]; discriminate.
    + eexists _, _; (split; [reflexivity|]); simpl. split; auto. split; auto.
  - rewrite send_message_delivered by apply Hsend. simpl.
    rewrite (check_thresholds_low env (set_displayed price st) price Hsend Hle).
    unfold was_above_low. simpl. rewrite (proj2 (le_true _ _) Hle). simpl.
    rewrite orb_false_r, (Hinv eq_refl).
    destruct (low_notified st) eqn:Hn; simpl;
      eexists _, _; (split; [reflexivity|]); simpl.
    + split; [|tauto]. split; [tauto|]. intros [?|(q & ? & ?)]; discriminate.
    + split; auto. split; auto.
Qed.

(** C6. When the entry read back after the sleep carries a low or a high
    threshold that differs from the one the loop was using, the cycle ends
    with both latches false and the new thresholds in place, and that is the
    state the next cycle, hence the next threshold check, starts from. *)
Theorem changed_thresholds_reset_latches env st log next config :
  iteration token_name chat_id info env st = (log, Ok next) ->
  load_monitoring_config (reloaded env) !! token_name = Some config ->
  ~ default 0 (cfg_low config) == low_threshold st
  \/ ~ default 0 (cfg_high config) == high_threshold st ->
  exists st',
    next = Some st'
    /\ low_notified st' = false /\ high_notified st' = false
    /\ low_threshold st' = default 0 (cfg_low config)
    /\ high_threshold st' = default 0 (cfg_high config)
    /\ forall rest,
         while_true token_name chat_id info st (env :: rest)
         = (log :: fst (while_true token_name chat_id info st' rest),
            snd (while_true token_name chat_id info st' rest)).
Proof.
  intros Hit Hconfig Hdiff.
  assert (Hnext : exists st1, next = Some (set_thresholds (default 0 (cfg_low config))
                                             (default 0 (cfg_high config)) st1)).
  { pose proof Hit as Hit'. rewrite iteration_unfold in Hit'.
    destruct (evaluate token_name chat_id info env st) as [log1 [st1|e]] eqn:He; [|done].
    destruct (cancel_requested env); [done|].
    injection Hit' as _ <-. exists st1.
    destruct (evaluate_thresholds _ _ _ _ He) as [Hl Hh].
    unfold reload. rewrite Hconfig, Hl, Hh.
    destruct Hdiff as [Hne|Hne]; apply ne_true in Hne; rewrite Hne;
      [reflexivity | rewrite orb_true_r; reflexivity]. }
  destruct Hnext as [st1 ->]; eexists; (split; [reflexivity|]);
    repeat (split; [reflexivity|]); intros rest; simpl; rewrite Hit;
    destruct (while_true _ _ _ _ rest); reflexivity.
Qed.

(** A loop that is still running goes on with the cycles that follow. *)
Lemma while_true_app st before logs st1 more :
  while_true token_name chat_id info st before = (logs, Running st1) ->
  while_true token_name chat_id info st (before ++ more)
  = (logs ++ fst (while_true token_name chat_id info st1 more),
     snd (while_true token_name chat_id info st1 more)).
Proof.
  revert st logs. induction before as [|env before IH]; intros st logs; simpl.
  - intros [= <- <-]. simpl. destruct (while_true _ _ _ _ more); reflexivity.
  - destruct (iteration token_name chat_id info env st) as [log [[st'|]|e]]; simpl.
    + destruct (while_true token_name chat_id info st' before) as [logs' out] eqn:Hrun.
      intros [= <- Hout]. subst out. rewrite (IH _ _ Hrun). simpl. reflexivity.
    + discriminate.
    + unfold on_exception. destruct (Exception e); discriminate.
Qed.

(** C7. Whatever the loop did before, the cycle in which monitoring.json,
    read again after the sleep, has no entry for the symbol is its last:
    the loop leaves through [break] (neither cancelled nor crashed, no
    error text sent) right after that read, and however many further cycles
    are on offer none is entered, so nothing more is sent. *)
Theorem removed_entry_ends_loop st before logs st1 env log next rest :
  while_true token_name chat_id info st before = (logs, Running st1) ->
  iteration token_name chat_id info env st1 = (log, Ok next) ->
  load_monitoring_config (reloaded env) !! token_name = None ->
  next = None
  /\ (exists evaluation, log = evaluation ++ [Sleep 8; LoadConfig])
  /\ while_true token_name chat_id info st (before ++ env :: rest)
     = (logs ++ [log], Unregistered).
Proof.
  intros Hrun Hit Hgone.
  assert (next = None /\ exists evaluation, log = evaluation ++ [Sleep 8; LoadConfig])
    as [-> Hlog].
  { rewrite iteration_unfold in Hit.
    destruct (evaluate token_name chat_id info env st1) as [log1 [st2|e]]; [|done].
    destruct (cancel_requested env); [done|].
    injection Hit as <- <-. unfold reload. rewrite Hgone. eauto. }
  split; [reflexivity|]. split; [exact Hlog|].
  rewrite (while_true_app _ _ _ _ _ Hrun). simpl. rewrite Hit. reflexivity.
Qed.

(** In a steady cycle whose entry carries the thresholds in use, the
    reload changes nothing: the state after the evaluation is the state of
    the next cycle. *)
Lemma steady_cycle file config price st log st' rest :
  load_monitoring_config file !! token_name = Some config ->
  default 0 (cfg_low config) == low_threshold st ->
  default 0 (cfg_high config) == high_threshold st ->
  on_quote token_name chat_id (steady file price) price st = (log, Ok st') ->
  while_true token_name chat_id info st (steady file price :: rest)
  = (let '(logs, out) := while_true token_name chat_id info st' rest in
     ((GetPrice (address info) (chain info) :: log ++ [Sleep 8; LoadConfig]) :: logs,
      out)).
Proof.
  intros Hconfig Hlow Hhigh Hquote.
  assert (Heval : evaluate token_name chat_id info (steady file price) st
                  = (GetPrice (address info) (chain info) :: log, Ok st')).
  { unfold evaluate. simpl. rewrite Hquote. reflexivity. }
  destruct (evaluate_thresholds _ _ _ _ Heval) as [Hl Hh].
  cbn [while_true]. rewrite iteration_unfold, Heval. simpl.
  unfold reload. simpl. rewrite Hconfig, Hl, Hh.
  apply ne_false in Hlow, Hhigh. rewrite Hlow, Hhigh. simpl. reflexivity.
Qed.

(** One steady cycle of the run of C1: evaluate the price on the state at
    hand, deciding each comparison from the band. *)
Ltac steady_step Hconfig Hlow Hhigh :=
  erewrite steady_cycle;
  [ | exact Hconfig
    | rewrite Hlow; reflexivity
    | rewrite Hhigh; reflexivity
    | unfold on_quote, display_once, check_thresholds, was_above_low,
        was_below_high, send_message;
      cbn -[Qle_bool Qplus Qminus];
      compare_floats; reflexivity ].

(** C1. A fresh loop on a band [low < high] that samples
    [high+1, high+1, mid, low-1, low-1, mid, high+1], with [mid] strictly
    inside the band, sends "reached high" in cycle 0, "reached low" in
    cycle 3 and "reached high" in cycle 6, and no notification in cycles
    1, 2, 4 and 5; the only other text is the price displayed once in
    cycle 0. *)
Theorem band_crossings_fire_once tokens file config low high mid :
  load_token_mapping tokens !! token_name = Some info ->
  load_monitoring_config file !! token_name = Some config ->
  cfg_low config = Some low ->
  cfg_high config = Some high ->
  low < high -> low < mid -> mid < high ->
  exists logs st,
    monitor_token tokens file token_name chat_id
      (map (steady file) [high + 1; high + 1; mid; low - 1; low - 1; mid; high + 1])
    = Ok (logs, Running st)
    /\ map notifications logs
       = [[ReachedHigh token_name]; []; []; [ReachedLow token_name]; []; [];
          [ReachedHigh token_name]]
    /\ map sent logs
       = [[CurrentPrice token_name (high + 1); ReachedHigh token_name]; []; [];
          [ReachedLow token_name]; []; []; [ReachedHigh token_name]].
Proof.
  intros Htoken Hconfig Hlow Hhigh Hband Hmid1 Hmid2.
  unfold monitor_token. rewrite Htoken.
  unfold initial_state. rewrite Hconfig.
  cbn [mbind option_bind default]. rewrite Hlow, Hhigh. cbn [default map].
  do 7 (steady_step Hconfig Hlow Hhigh).
  cbn [while_true].
  eexists _, _. split; [reflexivity|]. split; reflexivity.
Qed.
End MonitorLoopProperties.

(** The scenario of the specification: band [0.00237, 0.00355]; the price
    0.00400 fires "reached high" once, three more cycles at 0.00400 fire
    nothing, the drop to 0.00200 fires "reached low" once. *)
Example kori_scenario :
  match monitor_token kori_tokens kori_file "kori" 7
          (map (steady kori_file) [0.00400; 0.00400; 0.00400; 0.00400; 0.00200])
  with
  | Ok run => map sent (fst run)
  | Raise _ => []
  end
  = [[CurrentPrice "kori" 0.00400; ReachedHigh "kori"]; []; []; [];
     [ReachedLow "kori"]].
Proof. vm_compute. reflexivity. Qed.

Lemma band_crossings_fire_once_witness :
  exists logs st,
    monitor_token kori_tokens kori_file "kori" 7
      (map (steady kori_file)
         [0.00355 + 1; 0.00355 + 1; 0.003; 0.00237 - 1; 0.00237 - 1; 0.003;
          0.00355 + 1])
    = Ok (logs, Running st)
    /\ map notifications logs
       = [[ReachedHigh "kori"]; []; []; [ReachedLow "kori"]; []; [];
          [ReachedHigh "kori"]]
    /\ map sent logs
       = [[CurrentPrice "kori" (0.00355 + 1); ReachedHigh "kori"]; []; [];
          [ReachedLow "kori"]; []; []; [ReachedHigh "kori"]].
Proof.
  apply (band_crossings_fire_once "kori" 7 kori_info kori_tokens kori_file
           kori_entry 0.00237 0.00355 0.003);
    [reflexivity | reflexivity | reflexivity | reflexivity | lra | lra | lra].
Defined.

Lemma low_rule_witness :
  exists log st',
    on_quote "kori" 7 (steady kori_file 0.002) 0.002 (initial_state "kori" kori_file)
    = (log, Ok st')
    /\ (In (ReachedLow "kori") (notifications log)
        <-> low_notified (initial_state "kori" kori_file) = false
            \/ exists previous,
                 last_price (initial_state "kori" kori_file) = Some previous
                 /\ low_threshold (initial_state "kori" kori_file) < previous)
    /\ (In (ReachedLow "kori") (notifications log)
        -> low_notified st' = true /\ high_notified st' = false).
Proof.
  apply (low_rule "kori" 7 kori_info (steady kori_file 0.002)
           (initial_state "kori" kori_file) 0.002).
  - apply reachable_initial.
  - reflexivity.
  - vm_compute. discriminate.
Defined.

Lemma no_quote_skips_cycle_witness :
  evaluate "kori" 7 kori_info (silent kori_file) (initial_state "kori" kori_file)
    = ([GetPrice (address kori_info) (chain kori_info)],
       Ok (initial_state "kori" kori_file))
  /\ iteration "kori" 7 kori_info (silent kori_file) (initial_state "kori" kori_file)
     = ([GetPrice (address kori_info) (chain kori_info); Sleep 8; LoadConfig],
        Ok (reload "kori" (silent kori_file) (initial_state "kori" kori_file)))
  /\ sent (fst (iteration "kori" 7 kori_info (silent kori_file)
                  (initial_state "kori" kori_file))) = [].
Proof.
  apply (no_quote_skips_cycle "kori" 7 kori_info (silent kori_file)
           (initial_state "kori" kori_file)).
  reflexivity.
Defined.

Lemma first_quote_fires_on_latch_only_witness :
  In (ReachedHigh "kori")
     (notifications
        (fst (on_quote "kori" 7 (steady kori_file 0.004) 0.004
                (initial_state "kori" kori_file))))
  <-> ~ 0.004 <= low_threshold (initial_state "kori" kori_file)
      /\ high_threshold (initial_state "kori" kori_file) <= 0.004
      /\ high_notified (initial_state "kori" kori_file) = false.
Proof.
  apply (first_quote_fires_on_latch_only "kori" 7 (steady kori_file 0.004)
           (initial_state "kori" kori_file) 0.004); reflexivity.
Defined.

(** A band edited on disk while the loop sleeps: [kori 0.001 0.002]. *)
Lemma changed_thresholds_reset_latches_witness :
  exists st',
    Some (set_thresholds 0.001 0.002 (initial_state "kori" kori_file)) = Some st'
    /\ low_notified st' = false /\ high_notified st' = false
    /\ low_threshold st' = 0.001
    /\ high_threshold st' = 0.002
    /\ forall rest,
         while_true "kori" 7 kori_info (initial_state "kori" kori_file)
           (silent (Some {[ "kori" := {| cfg_low := Some 0.001; cfg_high := Some 0.002;
                                         cfg_chat_id := Some 7%Z |} ]}) :: rest)
         = ([GetPrice (address kori_info) (chain kori_info); Sleep 8; LoadConfig]
              :: fst (while_true "kori" 7 kori_info st' rest),
            snd (while_true "kori" 7 kori_info st' rest)).
Proof.
  apply (changed_thresholds_reset_latches "kori" 7 kori_info
           (silent (Some {[ "kori" := {| cfg_low := Some 0.001; cfg_high := Some 0.002;
                                         cfg_chat_id := Some 7%Z |} ]}))
           (initial_state "kori" kori_file)
           [GetPrice (address kori_info) (chain kori_info); Sleep 8; LoadConfig]
           (Some (set_thresholds 0.001 0.002 (initial_state "kori" kori_file)))
           {| cfg_low := Some 0.001; cfg_high := Some 0.002; cfg_chat_id := Some 7%Z |}).
  - reflexivity.
  - reflexivity.
  - left. vm_compute. discriminate.
Defined.

(** The price crosses the band, then the entry is gone (here the whole
    file): the cycle that finds it missing is the last one. *)
Lemma removed_entry_ends_loop_witness :
  @None monitor_state = None
  /\ (exists evaluation,
        [GetPrice (address kori_info) (chain kori_info); Sleep 8; LoadConfig]
        = evaluation ++ [Sleep 8; LoadConfig])
  /\ while_true "kori" 7 kori_info (initial_state "kori" kori_file)
       ([steady kori_file 0.004] ++ silent None :: [steady kori_file 0.002])
     = ([[GetPrice (address kori_info) (chain kori_info);
          SendMessage 7 (CurrentPrice "kori" 0.004);
          SendMessage 7 (ReachedHigh "kori"); Sleep 8; LoadConfig]]
        ++ [[GetPrice (address kori_info) (chain kori_info); Sleep 8; LoadConfig]],
        Unregistered).
Proof.
  eapply (removed_entry_ends_loop "kori" 7 kori_info
            (initial_state "kori" kori_file) [steady kori_file 0.004]).
  - vm_compute. reflexivity.
  - reflexivity.
  - reflexivity.
Defined.

(** ** Registration *)

(** C8. A command whose low value is not below its high value is refused
    at the validation step, before the mapping is consulted: the handler
    sends the error text and returns, monitoring.json is as it was, the task
    registry is as it was, no task is created and none is cancelled. *)
Theorem inverted_band_rejected float_of_string text chat_id b parsed :
  parse_command float_of_string text = Some parsed ->
  high parsed <= low parsed ->
  handle_message float_of_string text chat_id b = reply_text LowMustBeLess b
  /\ monitoring_file (handle_message float_of_string text chat_id b) = monitoring_file b
  /\ monitoring_tasks (handle_message float_of_string text chat_id b) = monitoring_tasks b
  /\ created (handle_message float_of_string text chat_id b) = created b
  /\ cancelled (handle_message float_of_string text chat_id b) = cancelled b
  /\ replies (handle_message float_of_string text chat_id b) = replies b ++ [LowMustBeLess].
Proof.
  intros Hparse Hband.
  assert (handle_message float_of_string text chat_id b = reply_text LowMustBeLess b) as ->.
  { unfold handle_message. rewrite Hparse.
    apply le_true in Hband. rewrite Hband. reflexivity. }
  repeat split.
Qed.

Lemma inverted_band_rejected_witness :
  handle_message decimal_literal "kori 0.00355 0.00237" 7 idle_bot
    = reply_text LowMustBeLess idle_bot
  /\ monitoring_file (handle_message decimal_literal "kori 0.00355 0.00237" 7 idle_bot)
     = monitoring_file idle_bot
  /\ monitoring_tasks (handle_message decimal_literal "kori 0.00355 0.00237" 7 idle_bot)
     = monitoring_tasks idle_bot
  /\ created (handle_message decimal_literal "kori 0.00355 0.00237" 7 idle_bot)
     = created idle_bot
  /\ cancelled (handle_message decimal_literal "kori 0.00355 0.00237" 7 idle_bot)
     = cancelled idle_bot
  /\ replies (handle_message decimal_literal "kori 0.00355 0.00237" 7 idle_bot)
     = replies idle_bot ++ [LowMustBeLess].
Proof.
  apply (inverted_band_rejected decimal_literal "kori 0.00355 0.00237" 7 idle_bot
           {| token_name := "kori"; low := 0.00355; high := 0.00237 |}).
  - vm_compute. reflexivity.
  - simpl. lra.
Defined.

(** Equal values are refused as well. *)
Example equal_band_rejected :
  replies (handle_message decimal_literal "kori 0.003 0.003" 7 idle_bot)
  = [LowMustBeLess].
Proof. vm_compute. reflexivity. Qed.

(** A band in order is registered: the entry is written, a task created. *)
Example ordered_band_registered :
  let b := handle_message decimal_literal "  KORI  0.00237   0.00355 " 7 idle_bot in
  monitoring_file b = kori_file
  /\ created b = [("kori", 7%Z)]
  /\ monitoring_tasks b !! "kori" = Some 0%nat
  /\ cancelled b = []
  /\ replies b = [Monitoring "kori" 0.00237 0.00355].
Proof. vm_compute. repeat split. Qed.

(** What [handle_message] writes to monitoring.json is a band in order. *)
Lemma registered_band_in_order float_of_string text chat_id b :
  monitoring_file (handle_message float_of_string text chat_id b) <> monitoring_file b ->
  exists parsed,
    parse_command float_of_string text = Some parsed /\ low parsed < high parsed.
Proof.
  unfold handle_message.
  destruct (parse_command float_of_string text) as [parsed|]; [|done].
  destruct (Qle_bool (high parsed) (low parsed)) eqn:C; [done|].
  apply le_false in C. eauto.
Qed.

(** ** The price resolver *)

(** *** Probing a DexTools payload *)

(** The order of the probes: nested under 'data', then top level, then
    nested under 'result', then the 'pairs' list. *)
Lemma probe_order float_of_string nested top result_ listed :
  let payload := every_shape nested top result_ listed in
  _extract_price_from_response float_of_string (JObj payload) = Ok (Some nested)
  /\ _extract_price_from_response float_of_string (JObj (take 3 payload)) = Ok (Some top)
  /\ _extract_price_from_response float_of_string (JObj (take 2 payload)) = Ok (Some result_)
  /\ _extract_price_from_response float_of_string (JObj (take 1 payload)) = Ok (Some listed)
  /\ _extract_price_from_response float_of_string (JObj []) = Ok None.
Proof. repeat split. Qed.

(** A field that is present and does not convert ends the probing: the
    later shapes are not tried. *)
Example unreadable_field_stops_probing :
  _extract_price_from_response decimal_literal
    (JObj [("data", JObj [("price", JNull)]); ("price", JNum 3)]) = Ok None.
Proof. reflexivity. Qed.

(** C3, at the payload where the code leaves the claim. The 'pairs' probe
    of [_extract_price_from_response] returns the price of the first record
    of the list as it came (0.5, a pool of 10 USD), not that of the record
    with the highest liquidity (0.25, a pool of 1000 USD);
    [_fetch_from_dexscreener], given the same payload, sorts by liquidity
    and returns 0.25. *)
Theorem extract_takes_first_pair_unsorted :
  _extract_price_from_response decimal_literal two_chains = Ok (Some 0.5)
  /\ _fetch_from_dexscreener decimal_literal (fun _ => Response 200 (Some two_chains))
       "0xabc" "ethereum"
     = (["https://api.dexscreener.com/latest/dex/tokens/0xabc"], Ok (Some 0.25)).
Proof. split; reflexivity. Qed.

(** *** DexScreener and the chain *)

(** [_fetch_from_dexscreener] computes [chain_id] and does not use it: the
    URL it requests and the price it returns do not depend on the chain. *)
Lemma dexscreener_ignores_chain float_of_string net address chain1 chain2 :
  _fetch_from_dexscreener float_of_string net address chain1
  = _fetch_from_dexscreener float_of_string net address chain2.
Proof. reflexivity. Qed.

(** EVM chains: DexScreener first, and DexTools only if it found nothing. *)
Lemma evm_dexscreener_first float_of_string net address chain price :
  snd (_fetch_from_dexscreener float_of_string net address chain) = Ok (Some price) ->
  _fetch_evm_price float_of_string net address chain
  = (["https://api.dexscreener.com/latest/dex/tokens/" +:+ address], Ok (Some price)).
Proof.
  unfold _fetch_evm_price, or_next, _fetch_from_dexscreener, requests_get.
  destruct (net _) as [kind|status_code body]; simpl; [discriminate|].
  destruct (status_code =? 200)%Z; simpl; [|discriminate].
  destruct (response_json body ≫= _) as [[p|]|e]; simpl; try discriminate.
  - intros [= ->]. reflexivity.
  - destruct (Exception e); simpl; discriminate.
Qed.

(** C4, at an input where the code leaves the claim. Asked for a token on
    "bsc", the resolver requests the DexScreener URL of the address alone
    (the chain is not part of it), takes the deepest pool of any chain and
    returns the price of the pair listed on Ethereum (0.25), not that of the
    pair on bsc (0.5). *)
Theorem dexscreener_not_scoped_to_chain :
  get_price decimal_literal (dexscreener_only two_chains) "0xabc" "bsc"
  = (["https://api.dexscreener.com/latest/dex/tokens/0xabc"], Ok (Some 0.25)).
Proof. reflexivity. Qed.

(** *** No exception leaves the resolver *)

(** The exceptions a computation may raise are among those a handler
    catches. *)
Definition raises_within {A} (catches : exn -> bool) (r : result A) : Prop :=
  match r with
  | Ok _ => True
  | Raise e => catches e = true
  end.

Lemma raises_within_Exception {A} (r : result A) :
  raises_within extract_catches r -> raises_within Exception r.
Proof. destruct r as [a|[]]; simpl; auto. Qed.

Lemma bind_raises {A B} catches (m : result A) (f : A -> result B) :
  raises_within catches m ->
  (forall a, raises_within catches (f a)) ->
  raises_within catches (m ≫= f).
Proof. destruct m as [a|e]; simpl; auto. Qed.

Lemma contains_raises key v : raises_within extract_catches (Py.contains key v).
Proof. destruct v; exact I || reflexivity. Qed.

Lemma getitem_raises v key : raises_within extract_catches (Py.getitem v key).
Proof.
  destruct v; try reflexivity. simpl.
  destruct (Py.assoc key fields); exact I || reflexivity.
Qed.

Lemma len_raises v : raises_within extract_catches (Py.len v).
Proof. destruct v; exact I || reflexivity. Qed.

Lemma response_json_raises body : raises_within extract_catches (response_json body).
Proof. destruct body; exact I || reflexivity. Qed.

Lemma float_raises float_of_string v :
  raises_within extract_catches (float_ float_of_string v).
Proof.
  destruct v; try (exact I || reflexivity).
  simpl. destruct (float_of_string s); exact I || reflexivity.
Qed.

Lemma get_raises v key dflt : raises_within Exception (Py.get v key dflt).
Proof. destruct v; exact I || reflexivity. Qed.

Lemma iter_raises v : raises_within Exception (Py.iter v).
Proof. destruct v; exact I || reflexivity. Qed.

Create HintDb raises.
#[local] Hint Resolve contains_raises getitem_raises len_raises
  response_json_raises float_raises get_raises iter_raises : raises.

(** Walk through a sequence of statements. *)
Ltac raises :=
  repeat first
    [ exact I
    | solve [auto with raises]
    | solve [apply raises_within_Exception; auto with raises]
    | apply bind_raises; [|intros ?]
    | match goal with
      | |- raises_within _ (if ?b then _ else _) => destruct b
      | |- raises_within _ (match ?x with _ => _ end) => destruct x
      end ].

Lemma first_field_raises float_of_string obj keys :
  raises_within extract_catches (first_field float_of_string obj keys).
Proof. induction keys as [|key rest IH]; simpl; raises. Qed.

#[local] Hint Resolve first_field_raises : raises.

Lemma nested_fields_raises float_of_string data key keys :
  raises_within extract_catches (nested_fields float_of_string data key keys).
Proof. unfold nested_fields, has_instance. raises. Qed.

(** [data['pairs'][0]] is guarded by the test on the length: no
    [IndexError]. *)
Lemma first_pair_raises float_of_string data :
  raises_within extract_catches (first_pair float_of_string data).
Proof.
  unfold first_pair, has_instance.
  destruct data as [| | | |items|fields]; try reflexivity.
  - simpl. destruct (bool_decide _); reflexivity.
  - simpl. destruct (existsb _ items); reflexivity.
  - simpl. destruct (Py.assoc "pairs" fields) as [[| | | |[|pair0 items]|]|] eqn:Hpairs;
      simpl; rewrite ?Hpairs; simpl; try exact I.
    exact (first_field_raises float_of_string pair0 ["priceUsd"; "price"]).
Qed.

#[local] Hint Resolve nested_fields_raises first_pair_raises : raises.

(** [_extract_price_from_response] returns on every payload, whatever its
    type and whatever is missing from it. *)
Lemma extract_returns float_of_string data :
  exists price, _extract_price_from_response float_of_string data = Ok price.
Proof.
  unfold _extract_price_from_response.
  match goal with
  | |- context [try_except ?body _ _] =>
      assert (Hbody : raises_within extract_catches body)
        by (unfold otherwise; raises);
      destruct body as [price|e]
  end; simpl in *; [eauto|].
  rewrite Hbody. eauto.
Qed.

(** A fetcher that always returns: a price or [None], never an exception. *)
Definition returns {E A} (m : Eff E A) : Prop := exists a, snd m = Ok a.

(** [try: ... except Exception: ...; return None] returns when its body
    raises exceptions only. *)
Lemma guarded_returns {E A} (body : Eff E (option A)) :
  raises_within Exception (snd body) ->
  returns (eff_try_except body Exception (fun _ => mret None)).
Proof.
  destruct body as [log [a|e]]; simpl; intros He; unfold returns, eff_try_except.
  - eauto.
  - rewrite He. simpl. eauto.
Qed.

(** One request, then statements that raise exceptions only. *)
Lemma request_then_raises {A} net url (rest : Z * option json -> Eff string A) :
  (forall response, raises_within Exception (snd (rest response))) ->
  raises_within Exception (snd (requests_get net url ≫= rest)).
Proof.
  intros Hrest. unfold requests_get. simpl.
  destruct (net url) as [kind|status_code body]; simpl; [reflexivity|].
  specialize (Hrest (status_code, body)).
  destruct (rest (status_code, body)) as [log r]. exact Hrest.
Qed.

Lemma jupiter_returns float_of_string net address :
  returns (_fetch_from_jupiter float_of_string net address).
Proof.
  apply guarded_returns, request_then_raises. intros [status_code body].
  destruct (status_code =? 200)%Z; [|exact I]. simpl. raises.
Qed.

Lemma dexscreener_returns float_of_string net address chain :
  returns (_fetch_from_dexscreener float_of_string net address chain).
Proof.
  apply guarded_returns, request_then_raises. intros [status_code body].
  destruct (status_code =? 200)%Z; [|exact I]. simpl.
  assert (Hkey : forall x, raises_within Exception (liquidity_usd float_of_string x))
    by (intros x; unfold liquidity_usd; raises).
  assert (Hkeys : forall items,
             raises_within Exception (Py.traverse (liquidity_usd float_of_string) items))
    by (induction items; simpl; raises).
  raises.
Qed.

Lemma birdeye_returns float_of_string net address :
  returns (_fetch_from_birdeye float_of_string net address).
Proof.
  apply guarded_returns, request_then_raises. intros [status_code body].
  destruct (status_code =? 200)%Z; [|exact I]. simpl. raises.
Qed.

Lemma dextools_endpoints_returns float_of_string net endpoints :
  returns (dextools_endpoints float_of_string net endpoints).
Proof.
  induction endpoints as [|url rest [price IH]]; [by exists None|].
  unfold returns. simpl.
  destruct (eff_try_except _ BaseException _) as [log [[found|]|e]] eqn:Htry; simpl.
  - eauto.
  - destruct (dextools_endpoints float_of_string net rest) as [log' r]. simpl in *. eauto.
  - exfalso. revert Htry. unfold eff_try_except.
    destruct (requests_get net url ≫= _) as [log1 [a|e1]]; simpl; discriminate.
Qed.

Lemma dextools_returns float_of_string net address chain :
  returns (_fetch_from_dextools float_of_string net address chain).
Proof.
  apply guarded_returns.
  destruct (dextools_endpoints_returns float_of_string net
    ["https://www.dextools.io/shared/data/pair?address=" +:+ address +:+ "&chain=" +:+ chain;
     "https://api.dextools.io/v1/token/" +:+ chain +:+ "/" +:+ address]) as [a Ha].
  rewrite Ha. exact I.
Qed.

Lemma or_next_returns (first next : Eff string (option float)) :
  returns first -> returns next -> returns (or_next first next).
Proof.
  intros [a Ha] [b Hb]. unfold returns, or_next.
  destruct first as [log r], next as [log' r']. simpl in *. subst r r'.
  destruct a; simpl; eauto.
Qed.

Lemma returns_raises {E A} (m : Eff E A) : returns m -> raises_within Exception (snd m).
Proof. intros [a ->]. exact I. Qed.

(** [get_price] returns a price or [None] to its caller on every address,
    every chain and every behaviour of the upstream services. *)
Lemma get_price_never_raises float_of_string net token_address chain :
  exists price, snd (get_price float_of_string net token_address chain) = Ok price.
Proof.
  apply guarded_returns, returns_raises. simpl.
  pose proof jupiter_returns. pose proof dexscreener_returns.
  pose proof birdeye_returns. pose proof dextools_returns.
  destruct (String.eqb _ "solana"); [|destruct (String.eqb _ "sui")];
    unfold _fetch_solana_price, _fetch_sui_price, _fetch_evm_price;
    repeat apply or_next_returns; auto; by exists None.
Qed.

(** Upstream services that all fail (refused connections, error statuses,
    bodies that are not JSON) give [None], after every source of the chain
    was tried in order. *)
Example all_sources_down :
  get_price decimal_literal (fun _ => RequestFailed Timeout) "So1111" "Solana"
  = (["https://price.jup.ag/v4/price?ids=So1111";
      "https://api.dexscreener.com/latest/dex/tokens/So1111";
      "https://www.dextools.io/shared/data/pair?address=So1111&chain=solana";
      "https://api.dextools.io/v1/token/solana/So1111";
      "https://public-api.birdeye.so/v1/token/price?address=So1111"],
     Ok None)
  /\ snd (get_price decimal_literal (fun _ => Response 503 None) "0xabc" "bsc") = Ok None
  /\ snd (get_price decimal_literal (fun _ => Response 200 None) "0xabc" "sui") = Ok None
  /\ snd (get_price decimal_literal
            (fun _ => Response 200 (Some (JObj [("pairs", JNull)]))) "0xabc" "bsc")
     = Ok None.
Proof. repeat split. Qed.

(** C5, at an input where the code leaves the claim. DexScreener answers
    with a pair that has no 'priceUsd' field (only 'priceNative') and every
    other source fails: no source has a price in USD, yet the resolver
    returns the price 0 instead of [None]. The branch taken reads
    [pair.get('priceUsd', 0)] where 'priceUsd' is known to be absent. *)
Theorem missing_price_field_yields_zero :
  get_price decimal_literal (dexscreener_only native_only) "0xabc" "ethereum"
  = (["https://api.dexscreener.com/latest/dex/tokens/0xabc"], Ok (Some 0)).
Proof. reflexivity. Qed.

(** * Further properties *)

(** ** The order of the sources *)

(** A fetcher that makes one request inside [try ... except Exception]
    logs that request and nothing else. *)
Lemma one_request {A} net url (rest : Z * option json -> Eff string (option A)) :
  (forall response, fst (rest response) = []) ->
  fst (eff_try_except (requests_get net url ≫= rest) Exception (fun _ => mret None))
  = [url].
Proof.
  intros Hrest. unfold requests_get. simpl.
  destruct (net url) as [kind|status_code body]; simpl; [reflexivity|].
  specialize (Hrest (status_code, body)).
  destruct (rest (status_code, body)) as [log [a|e]]; simpl in *; subst log;
    [reflexivity|].
  destruct (Exception e); reflexivity.
Qed.

Lemma jupiter_shape float_of_string net address :
  exists price,
    _fetch_from_jupiter float_of_string net address = ([jupiter_url address], Ok price).
Proof.
  destruct (jupiter_returns float_of_string net address) as [price Hprice].
  exists price. rewrite <- Hprice. rewrite (surjective_pairing (_fetch_from_jupiter _ _ _)).
  f_equal. apply one_request. intros [status_code body].
  destruct (status_code =? 200)%Z; reflexivity.
Qed.

Lemma dexscreener_shape float_of_string net address chain :
  exists price,
    _fetch_from_dexscreener float_of_string net address chain
    = ([dexscreener_url address], Ok price).
Proof.
  destruct (dexscreener_returns float_of_string net address chain) as [price Hprice].
  exists price. rewrite <- Hprice.
  rewrite (surjective_pairing (_fetch_from_dexscreener _ _ _ _)).
  f_equal. apply one_request. intros [status_code body].
  destruct (status_code =? 200)%Z; reflexivity.
Qed.

Lemma birdeye_shape float_of_string net address :
  exists price,
    _fetch_from_birdeye float_of_string net address = ([birdeye_url address], Ok price).
Proof.
  destruct (birdeye_returns float_of_string net address) as [price Hprice].
  exists price. rewrite <- Hprice. rewrite (surjective_pairing (_fetch_from_birdeye _ _ _)).
  f_equal. apply one_request. intros [status_code body].
  destruct (status_code =? 200)%Z; reflexivity.
Qed.

(** One endpoint of DexTools: one request, after which the loop returns a
    price or moves on to the endpoints that remain. *)
Lemma dextools_endpoints_cons float_of_string net url rest :
  (exists price, dextools_endpoints float_of_string net (url :: rest)
                 = ([url], Ok (Some price)))
  \/ dextools_endpoints float_of_string net (url :: rest)
     = (url :: fst (dextools_endpoints float_of_string net rest),
        snd (dextools_endpoints float_of_string net rest)).
Proof.
  cbn [dextools_endpoints]. unfold requests_get. simpl.
  destruct (dextools_endpoints float_of_string net rest) as [log' r'] eqn:Hrest.
  destruct (net url) as [kind|status_code body]; simpl; [right; reflexivity|].
  destruct (status_code =? 200)%Z; simpl; [|right; reflexivity].
  destruct (response_json body ≫= _) as [[price|]|e]; simpl; eauto.
Qed.

(** DexTools: the second endpoint is asked only when the first gave no
    price. *)
Lemma dextools_shape float_of_string net address chain :
  (exists price, _fetch_from_dextools float_of_string net address chain
                 = (take 1 (dextools_urls address chain), Ok (Some price)))
  \/ (exists found, _fetch_from_dextools float_of_string net address chain
                    = (dextools_urls address chain, Ok found)).
Proof.
  unfold _fetch_from_dextools, dextools_urls.
  destruct (dextools_endpoints_cons float_of_string net
    ("https://www.dextools.io/shared/data/pair?address=" +:+ address +:+ "&chain=" +:+ chain)
    ["https://api.dextools.io/v1/token/" +:+ chain +:+ "/" +:+ address])
    as [[price ->]| ->].
  - left. exists price. reflexivity.
  - right.
    destruct (dextools_endpoints_cons float_of_string net
      ("https://api.dextools.io/v1/token/" +:+ chain +:+ "/" +:+ address) [])
      as [[price ->]| ->]; simpl; eauto.
Qed.

(** X1. For a Solana token the sources are asked in the order Jupiter,
    DexScreener, DexTools (two endpoints), Birdeye, each at most once and
    none out of turn: the requests made are an initial part of that list, and
    [None] is returned only after the whole list was asked. *)
Theorem solana_sources_in_order float_of_string net address chain :
  lower chain = "solana" ->
  fst (get_price float_of_string net address chain) `prefix_of` solana_urls address
  /\ head (fst (get_price float_of_string net address chain)) = Some (jupiter_url address)
  /\ (snd (get_price float_of_string net address chain) = Ok None ->
      fst (get_price float_of_string net address chain) = solana_urls address).
Proof.
  intros Hchain. unfold get_price. rewrite Hchain. cbn [String.eqb Ascii.eqb Bool.eqb].
  unfold _fetch_solana_price, or_next, solana_urls.
  destruct (jupiter_shape float_of_string net address) as [[p|] ->]; simpl.
  { split; [by eexists|]. split; [done|discriminate]. }
  destruct (dexscreener_shape float_of_string net address "solana") as [[p|] ->]; simpl.
  { split; [by eexists|]. split; [done|discriminate]. }
  destruct (dextools_shape float_of_string net address "solana")
    as [[p ->]|[[p|] ->]]; simpl.
  { split; [by eexists|]. split; [done|discriminate]. }
  { split; [by eexists|]. split; [done|discriminate]. }
  destruct (birdeye_shape float_of_string net address) as [[p|] ->]; simpl.
  { split; [by eexists|]. split; [done|discriminate]. }
  split; [by eexists|]. split; done.
Qed.

Lemma solana_sources_in_order_witness :
  fst (get_price decimal_literal (fun _ => RequestFailed Timeout) "So1111" "Solana")
    `prefix_of` solana_urls "So1111"
  /\ head (fst (get_price decimal_literal (fun _ => RequestFailed Timeout) "So1111" "Solana"))
     = Some (jupiter_url "So1111")
  /\ (snd (get_price decimal_literal (fun _ => RequestFailed Timeout) "So1111" "Solana")
      = Ok None ->
      fst (get_price decimal_literal (fun _ => RequestFailed Timeout) "So1111" "Solana")
      = solana_urls "So1111").
Proof.
  apply (solana_sources_in_order decimal_literal (fun _ => RequestFailed Timeout)
           "So1111" "Solana").
  reflexivity.
Defined.

(** X2. When Jupiter has a price for a Solana token, that price is the
    answer and no other source is asked. *)
Theorem jupiter_price_short_circuits float_of_string net address chain price :
  lower chain = "solana" ->
  snd (_fetch_from_jupiter float_of_string net address) = Ok (Some price) ->
  get_price float_of_string net address chain = ([jupiter_url address], Ok (Some price)).
Proof.
  intros Hchain Hjup. unfold get_price. rewrite Hchain. cbn [String.eqb Ascii.eqb Bool.eqb].
  unfold _fetch_solana_price, or_next.
  destruct (jupiter_shape float_of_string net address) as [found Hshape].
  rewrite Hshape in Hjup |- *. simpl in Hjup. injection Hjup as ->. reflexivity.
Qed.

Lemma jupiter_price_short_circuits_witness :
  get_price decimal_literal (jupiter_quotes "So1111") "So1111" "SOLANA"
  = ([jupiter_url "So1111"], Ok (Some 0.00300)).
Proof.
  apply (jupiter_price_short_circuits decimal_literal (jupiter_quotes "So1111")
           "So1111" "SOLANA" 0.00300); reflexivity.
Defined.

(** X3. Any chain other than Solana is resolved through DexScreener first
    and DexTools second: the requests made are an initial part of
    DexScreener's URL followed by the two DexTools URLs of the lower-cased
    chain, and [None] is returned only after all three were asked. *)
Theorem dex_sources_in_order float_of_string net address chain :
  lower chain <> "solana" ->
  fst (get_price float_of_string net address chain)
    `prefix_of` dex_urls address (lower chain)
  /\ head (fst (get_price float_of_string net address chain))
     = Some (dexscreener_url address)
  /\ (snd (get_price float_of_string net address chain) = Ok None ->
      fst (get_price float_of_string net address chain)
      = dex_urls address (lower chain)).
Proof.
  intros Hchain. unfold get_price.
  destruct (String.eqb_spec (lower chain) "solana") as [|_]; [done|].
  assert (Hdex : forall c,
    let run := or_next (_fetch_from_dexscreener float_of_string net address c)
                 (or_next (_fetch_from_dextools float_of_string net address c) (mret None)) in
    exists log r, run = (log, Ok r)
      /\ log `prefix_of` dex_urls address c
      /\ head log = Some (dexscreener_url address)
      /\ (r = None -> log = dex_urls address c)).
  { intros c. unfold or_next, dex_urls.
    destruct (dexscreener_shape float_of_string net address c) as [[p|] ->]; simpl.
    { eexists _, _. split; [reflexivity|]. split; [by eexists|]. split; done. }
    destruct (dextools_shape float_of_string net address c)
      as [[p ->]|[[p|] ->]]; simpl;
      eexists _, _; (split; [reflexivity|]); (split; [by eexists|]); split; done. }
  destruct (String.eqb_spec (lower chain) "sui") as [Hsui|_].
  - rewrite Hsui. unfold _fetch_sui_price.
    destruct (Hdex "sui") as (log & r & -> & Hprefix & Hhead & Hall). simpl.
    split; [exact Hprefix|]. split; [exact Hhead|]. intros [= ->]. auto.
  - unfold _fetch_evm_price.
    destruct (Hdex (lower chain)) as (log & r & -> & Hprefix & Hhead & Hall). simpl.
    split; [exact Hprefix|]. split; [exact Hhead|]. intros [= ->]. auto.
Qed.

Lemma dex_sources_in_order_witness :
  fst (get_price decimal_literal (fun _ => Response 503 None) "0xabc" "BSC")
    `prefix_of` dex_urls "0xabc" (lower "BSC")
  /\ head (fst (get_price decimal_literal (fun _ => Response 503 None) "0xabc" "BSC"))
     = Some (dexscreener_url "0xabc")
  /\ (snd (get_price decimal_literal (fun _ => Response 503 None) "0xabc" "BSC") = Ok None ->
      fst (get_price decimal_literal (fun _ => Response 503 None) "0xabc" "BSC")
      = dex_urls "0xabc" (lower "BSC")).
Proof.
  apply (dex_sources_in_order decimal_literal (fun _ => Response 503 None) "0xabc" "BSC").
  vm_compute. discriminate.
Defined.

(** ** Chains, failures and odd payloads *)

Lemma lower_ascii_idempotent c : lower_ascii (lower_ascii c) = lower_ascii c.
Proof. destruct c as [[] [] [] [] [] [] [] []]; reflexivity. Qed.

Lemma lower_idempotent s : lower (lower s) = lower s.
Proof.
  induction s as [|c rest IH]; [reflexivity|].
  simpl. rewrite lower_ascii_idempotent, IH. reflexivity.
Qed.

(** X4. The chain name is read without regard to case: a chain and its
    lower-case spelling are resolved by the same requests to the same
    result. *)
Theorem chain_case_is_ignored float_of_string net address chain :
  get_price float_of_string net address chain
  = get_price float_of_string net address (lower chain).
Proof. unfold get_price. rewrite lower_idempotent. reflexivity. Qed.

(** X5. When every request fails to give a readable answer (it raises, or
    the status is not 200, or the body is not JSON), the resolver returns
    [None], for every address and chain. *)
Theorem unavailable_sources_give_none float_of_string net address chain :
  (forall url, unavailable (net url)) ->
  snd (get_price float_of_string net address chain) = Ok None.
Proof.
  intros Hnet.
  assert (Hone : forall url (rest : json -> result (option float)),
    snd (eff_try_except
           (requests_get net url ≫= λ '(status_code, body),
              if (status_code =? 200)%Z
              then lift (response_json body ≫= rest)
              else mret None)
           Exception (fun _ => mret None)) = Ok None).
  { intros url rest. unfold requests_get. simpl.
    specialize (Hnet url). destruct (net url) as [kind|status_code body]; simpl; [done|].
    destruct (Z.eqb_spec status_code 200) as [->|_]; simpl; [|done].
    destruct Hnet as [?| ->]; done. }
  assert (Hjup : snd (_fetch_from_jupiter float_of_string net address) = Ok None)
    by apply Hone.
  assert (Hdex : forall c, snd (_fetch_from_dexscreener float_of_string net address c) = Ok None)
    by (intros c; apply Hone).
  assert (Hbird : snd (_fetch_from_birdeye float_of_string net address) = Ok None)
    by apply Hone.
  assert (Hends : forall endpoints,
             snd (dextools_endpoints float_of_string net endpoints) = Ok None).
  { induction endpoints as [|url rest IH]; [reflexivity|].
    cbn [dextools_endpoints]. unfold requests_get. simpl.
    destruct (dextools_endpoints float_of_string net rest) as [log' r']. simpl in IH. subst r'.
    specialize (Hnet url). destruct (net url) as [kind|status_code body]; simpl; [done|].
    destruct (Z.eqb_spec status_code 200) as [->|_]; simpl; [|done].
    destruct Hnet as [?| ->]; done. }
  assert (Htools : forall c, snd (_fetch_from_dextools float_of_string net address c) = Ok None).
  { intros c. unfold _fetch_from_dextools.
    specialize (Hends
      ["https://www.dextools.io/shared/data/pair?address=" +:+ address +:+ "&chain=" +:+ c;
       "https://api.dextools.io/v1/token/" +:+ c +:+ "/" +:+ address]).
    destruct (dextools_endpoints _ _ _) as [log r]. simpl in *. subst r. reflexivity. }
  assert (Hnext : forall first next : Eff string (option float),
             snd first = Ok None -> snd next = Ok None -> snd (or_next first next) = Ok None).
  { intros [log r] [log' r']. simpl. intros -> ->. reflexivity. }
  assert (Hbody : snd (if String.eqb (lower chain) "solana"
                       then _fetch_solana_price float_of_string net address
                       else if String.eqb (lower chain) "sui"
                            then _fetch_sui_price float_of_string net address
                            else _fetch_evm_price float_of_string net address (lower chain))
                  = Ok None).
  { destruct (String.eqb _ "solana"); [|destruct (String.eqb _ "sui")];
      unfold _fetch_solana_price, _fetch_sui_price, _fetch_evm_price;
      repeat apply Hnext; auto. }
  unfold get_price. destruct (if String.eqb _ _ then _ else _) as [log r].
  simpl in *. subst r. reflexivity.
Qed.

Lemma unavailable_sources_give_none_witness :
  snd (get_price decimal_literal (fun _ => Response 200 None) "0xabc" "polygon") = Ok None.
Proof.
  apply (unavailable_sources_give_none decimal_literal (fun _ => Response 200 None)
           "0xabc" "polygon").
  intros url. right. reflexivity.
Defined.

(** X6. A DexTools payload that is not an object (null, a boolean, a number,
    a string or a list) never yields a price and never raises: the
    extraction returns [None]. *)
Theorem extract_needs_an_object float_of_string data :
  Py.is_dict data = false ->
  _extract_price_from_response float_of_string data = Ok None.
Proof.
  intros Hshape. destruct data as [| | |s|items|fields]; try reflexivity.
  - unfold _extract_price_from_response, otherwise, nested_fields, first_pair,
      has_instance, first_field, Py.contains. simpl.
    repeat (destruct (bool_decide _); simpl; try reflexivity).
  - unfold _extract_price_from_response, otherwise, nested_fields, first_pair,
      has_instance, first_field, Py.contains. simpl.
    repeat (destruct (existsb _ items); simpl; try reflexivity).
  - discriminate.
Qed.

Lemma extract_needs_an_object_witness :
  _extract_price_from_response decimal_literal (JArr [JStr "price"; JNum 3]) = Ok None.
Proof.
  apply (extract_needs_an_object decimal_literal (JArr [JStr "price"; JNum 3])).
  reflexivity.
Defined.

(** ** The pair DexScreener's price is read from *)

Lemma insert_desc_perm {A} k (x : A) sorted :
  Py.insert_desc k x sorted ≡ₚ (k, x) :: sorted.
Proof.
  induction sorted as [|[k' y] rest IH]; simpl; [reflexivity|].
  destruct (negb (Qle_bool k' k)); [|reflexivity].
  rewrite IH. apply Permutation_swap.
Qed.

Lemma sorted_keyed_perm {A} (keyed : list (float * A)) : sorted_keyed keyed ≡ₚ keyed.
Proof.
  induction keyed as [|[k x] rest IH]; simpl; [reflexivity|].
  rewrite insert_desc_perm, IH. reflexivity.
Qed.

(** The sort puts first the first item among those of the greatest key. *)
Lemma sorted_keyed_head {A} (keyed : list (float * A)) i k x :
  keyed !! i = Some (k, x) ->
  (forall j k' y, keyed !! j = Some (k', y) -> k' <= k) ->
  (forall j k' y, (j < i)%nat -> keyed !! j = Some (k', y) -> k' < k) ->
  head (sorted_keyed keyed) = Some (k, x).
Proof.
  revert i. induction keyed as [|[k0 x0] rest IH]; intros i Hi Hmax Hfirst; [done|].
  cbn [sorted_keyed foldr fst snd]. fold (sorted_keyed rest).
  destruct i as [|i].
  - injection Hi as -> ->.
    destruct (sorted_keyed rest) as [|[k' y] tail] eqn:Hsorted; [reflexivity|].
    assert (Hin : (k', y) ∈ rest).
    { rewrite <- (sorted_keyed_perm rest), Hsorted. left. }
    apply list_elem_of_lookup_1 in Hin as [j Hj].
    specialize (Hmax (S j) k' y Hj).
    simpl. apply le_true in Hmax. rewrite Hmax. reflexivity.
  - specialize (IH i Hi (fun j => Hmax (S j))
                  (fun j k' y Hlt => Hfirst (S j) k' y (proj1 (Nat.succ_lt_mono j i) Hlt))).
    destruct (sorted_keyed rest) as [|[k' y] tail]; [done|].
    injection IH as -> ->.
    specialize (Hfirst 0%nat k0 x0 (Nat.lt_0_succ i) eq_refl).
    simpl. apply le_false in Hfirst. rewrite Hfirst. reflexivity.
Qed.



(** ** More on the threshold tracker *)

Section TrackerProperties.

Variables (token_name : string) (chat_id : Z) (info : token_info).

(** The high rule on the threshold check alone: it is reached only when
    the price is above the low threshold. *)
Lemma check_thresholds_high env st price :
  (forall text, delivers env text = true) ->
  low_threshold st < price ->
  high_threshold st <= price ->
  check_thresholds token_name chat_id env price st =
    if negb (high_notified st) || was_below_high st
    then ([SendMessage chat_id (ReachedHigh token_name)], Ok (set_notified false true st))
    else ([], Ok st).
Proof.
  intros Hsend Hlow Hhigh. unfold check_thresholds.
  apply le_false in Hlow. apply le_true in Hhigh. rewrite Hlow, Hhigh.
  destruct (negb (high_notified st) || was_below_high st); [|reflexivity].
  rewrite send_message_delivered by apply Hsend. reflexivity.
Qed.

(** X8. In every evaluation a running loop makes of a price above the low
    threshold and at or above the high one, "reached high" is sent if and
    only if [high_notified] is false or the previous price was strictly
    below the high threshold; when it is sent, the evaluation leaves
    [high_notified] true and [low_notified] false. *)
Theorem high_rule env st price :
  reachable token_name chat_id info st ->
  (forall text, delivers env text = true) ->
  low_threshold st < price ->
  high_threshold st <= price ->
  exists log st',
    on_quote token_name chat_id env price st = (log, Ok st')
    /\ (In (ReachedHigh token_name) (notifications log)
        <-> high_notified st = false
            \/ exists previous, last_price st = Some previous
                                /\ previous < high_threshold st)
    /\ (In (ReachedHigh token_name) (notifications log)
        -> high_notified st' = true /\ low_notified st' = false).
Proof.
  intros Hreach Hsend Hlow Hhigh.
  pose proof (reachable_last_price token_name chat_id info st Hreach) as Hinv.
  unfold on_quote, display_once.
  destruct (price_displayed st) eqn:Hd; simpl.
  - rewrite (check_thresholds_high env st price Hsend Hlow Hhigh).
    unfold was_below_high.
    destruct (high_notified st) eqn:Hn; simpl.
    + destruct (last_price st) as [previous|] eqn:Hl.
      * destruct (Qle_bool (high_threshold st) previous) eqn:C; simpl;
          [apply le_true in C | apply le_false in C];
          eexists _, _; (split; [reflexivity|]); simpl.
        -- split; [|tauto]. split; [tauto|].
           intros [?|(q & [= <-] & ?)]; [discriminate|lra].
        -- split; [|auto]. split; [|tauto]. intros _. right. eauto.
      * eexists _, _; (split; [reflexivity|]); simpl.
        split; [|tauto]. split; [tauto|]. intros [?|(q & ? & ?)]; discriminate.
    + eexists _, _; (split; [reflexivity|]); simpl. split; auto. split; auto.
  - rewrite send_message_delivered by apply Hsend. simpl.
    rewrite (check_thresholds_high env (set_displayed price st) price Hsend Hlow Hhigh).
    unfold was_below_high. simpl. rewrite (proj2 (le_true _ _) Hhigh). simpl.
    rewrite orb_false_r, (Hinv eq_refl).
    destruct (high_notified st) eqn:Hn; simpl;
      eexists _, _; (split; [reflexivity|]); simpl.
    + split; [|tauto]. split; [tauto|]. intros [?|(q & ? & ?)]; discriminate.
    + split; auto. split; auto.
Qed.


(** The price displays of one cycle. *)
Lemma displays_cons log logs : displays (log :: logs) = displays [log] ++ displays logs.
Proof.
  unfold displays, sent. simpl. rewrite app_nil_r.
  rewrite !flat_map_app. reflexivity.
Qed.

(** A cycle displays the price at most once, never when it was displayed
    before, and a cycle that displayed it is followed by cycles that know. *)
Lemma iteration_displays env st log r :
  iteration token_name chat_id info env st = (log, r) ->
  (length (displays [log]) <= 1)%nat
  /\ (price_displayed st = true -> displays [log] = [])
  /\ (forall st', r = Ok (Some st') ->
        price_displayed st = true \/ displays [log] <> [] ->
        price_displayed st' = true).
Proof.
  rewrite iteration_unfold.
  destruct (evaluate token_name chat_id info env st) as [log1 r1] eqn:He.
  assert (Heval : (length (displays [log1]) <= 1)%nat
            /\ (price_displayed st = true -> displays [log1] = [])
            /\ (forall st1, r1 = Ok st1 ->
                  price_displayed st = true \/ displays [log1] <> [] ->
                  price_displayed st1 = true)).
  { revert He.
    unfold evaluate, on_quote, display_once, check_thresholds, send_message.
    destruct (quote env) as [price|]; simpl.
    - destruct (price_displayed st) eqn:Hd; simpl; split_tests;
        intros [= <- <-]; simpl;
        (split; [lia|]); (split; [done|]); intros st1 [= <-]; simpl; tauto.
    - intros [= <- <-]. simpl. split; [lia|]. split; [done|].
      intros st1 [= <-]. intros [?|?]; done. }
  assert (Htail : forall tail, displays [log1 ++ tail] = displays [log1] ++ displays [tail]).
  { intros tail. unfold displays, sent. simpl. rewrite !app_nil_r, !flat_map_app. reflexivity. }
  destruct Heval as (Hone & Hnone & Hnext).
  destruct r1 as [st1|e].
  - destruct (cancel_requested env); intros [= <- <-]; rewrite Htail, app_nil_r;
      (split; [exact Hone|]); (split; [exact Hnone|]); intros st' Hst' Hseen; [done|].
    injection Hst' as Hre. apply reload_keeps in Hre as [-> _]. eauto.
  - intros [= <- <-]. split; [exact Hone|]. split; [exact Hnone|]. done.
Qed.

(** X10. Over the whole life of a loop the current price is displayed at
    most once, and not at all by a loop that has displayed it already,
    whatever the quotes, the notifier, the cancellations and the reloads
    are. *)
Theorem price_displayed_at_most_once st envs :
  (length (displays (fst (while_true token_name chat_id info st envs))) <= 1)%nat
  /\ (price_displayed st = true ->
      displays (fst (while_true token_name chat_id info st envs)) = []).
Proof.
  revert st. induction envs as [|env rest IH]; intros st; [simpl; split; [lia|done]|].
  cbn [while_true].
  destruct (iteration token_name chat_id info env st) as [log r] eqn:Hit.
  destruct (iteration_displays env st log r Hit) as (Hone & Hnone & Hnext).
  destruct r as [[st'|]|e].
  - destruct (while_true token_name chat_id info st' rest) as [logs out] eqn:Hrun.
    destruct (IH st') as [IHone IHnone]. rewrite Hrun in IHone, IHnone.
    cbn [fst] in *. rewrite displays_cons, length_app. split.
    + destruct (displays [log]) as [|d ds] eqn:Hd.
      * simpl. exact IHone.
      * rewrite IHnone; [simpl in *; lia|]. apply Hnext; [reflexivity|]. right. done.
    + intros Hd. rewrite (Hnone Hd), IHnone; [reflexivity|]. apply Hnext; auto.
  - cbn [fst]. split; [exact Hone|exact Hnone].
  - unfold on_exception.
    assert (Hexn : forall tail,
      (forall text, In (SendMessage chat_id text) tail -> exists e', text = MonitoringError token_name e') ->
      (forall a, In a tail -> exists text, a = SendMessage chat_id text) ->
      displays [log ++ tail] = displays [log]).
    { intros tail Htexts Hsends. unfold displays, sent. simpl. rewrite !app_nil_r, !flat_map_app.
      rewrite <- app_nil_r. f_equal.
      induction tail as [|a tail IHt]; [reflexivity|]. simpl.
      destruct (Hsends a (or_introl eq_refl)) as [text ->].
      destruct (Htexts text (or_introl eq_refl)) as [e' ->]. simpl.
      apply IHt; intros; [apply Htexts|apply Hsends]; by right. }
    destruct (Exception e); [destruct (delivers env _)|]; cbn [fst].
    + rewrite Hexn; [split; [exact Hone|exact Hnone]| |].
      * intros text [[= <-]|[]]. eauto.
      * intros a [<-|[]]. eauto.
    + rewrite app_nil_r. split; [exact Hone|exact Hnone].
    + rewrite app_nil_r. split; [exact Hone|exact Hnone].
Qed.

(** The tracker has fired low, or held it, and the price has not left:
    the latch is set and the last price is at or below the threshold. *)
Lemma below_low_latched env st price :
  (forall text, delivers env text = true) ->
  price <= low_threshold st ->
  exists log st',
    on_quote token_name chat_id env price st = (log, Ok st')
    /\ low_threshold st' = low_threshold st
    /\ high_threshold st' = high_threshold st
    /\ price_displayed st' = true
    /\ low_notified st' = true
    /\ last_price st' = Some price
    /\ (notifications log = [] \/ notifications log = [ReachedLow token_name])
    /\ (price_displayed st = true -> low_notified st = true ->
        (exists previous, last_price st = Some previous /\ previous <= low_threshold st) ->
        log = []).
Proof.
  intros Hsend Hle.
  unfold on_quote, display_once.
  destruct (price_displayed st) eqn:Hd; simpl.
  - rewrite (check_thresholds_low token_name chat_id env st price Hsend Hle).
    unfold was_above_low.
    destruct (low_notified st) eqn:Hn; simpl.
    + destruct (last_price st) as [previous|] eqn:Hl.
      * destruct (Qle_bool previous (low_threshold st)) eqn:C; simpl;
          eexists _, _; (split; [reflexivity|]); simpl; repeat split; auto.
        intros _ _ (q & [= <-] & Hq). apply le_true in Hq. congruence.
      * eexists _, _; (split; [reflexivity|]); simpl; repeat split; auto.
    + eexists _, _; (split; [reflexivity|]); simpl; repeat split; auto. discriminate.
  - rewrite send_message_delivered by apply Hsend. simpl.
    rewrite (check_thresholds_low token_name chat_id env (set_displayed price st) price
               Hsend Hle).
    destruct (negb _ || _) eqn:Hfire; simpl;
      eexists _, _; (split; [reflexivity|]); simpl; repeat split; auto; try discriminate.
    apply orb_false_elim in Hfire as [Hlatch _]. simpl in Hlatch.
    apply negb_false_iff in Hlatch. exact Hlatch.
Qed.

(** Once latched, a steady run that stays at or below the low threshold
    sends nothing at all. *)
Lemma latched_run_is_quiet file config prices : forall st previous,
  load_monitoring_config file !! token_name = Some config ->
  default 0 (cfg_low config) == low_threshold st ->
  default 0 (cfg_high config) == high_threshold st ->
  price_displayed st = true ->
  low_notified st = true ->
  last_price st = Some previous ->
  previous <= low_threshold st ->
  Forall (fun price => price <= low_threshold st) prices ->
  exists logs st',
    while_true token_name chat_id info st (map (steady file) prices) = (logs, Running st')
    /\ Forall (fun log => sent log = []) logs.
Proof.
  induction prices as [|price rest IH]; intros st previous Hconfig Hlow Hhigh Hd Hn Hl Hp Hall.
  - eexists _, _. split; [reflexivity|constructor].
  - apply Forall_cons in Hall as [Hprice Hrest].
    destruct (below_low_latched (steady file price) st price (fun _ => eq_refl) Hprice)
      as (log & st1 & Hquote & Hl1 & Hh1 & Hd1 & Hn1 & Hlast1 & _ & Hquiet).
    rewrite (Hquiet Hd Hn (ex_intro _ previous (conj Hl Hp))) in Hquote.
    cbn [map]. rewrite (steady_cycle token_name chat_id info _ _ _ _ _ _ (map (steady file) rest)
                          Hconfig Hlow Hhigh Hquote).
    rewrite <- Hl1 in Hlow, Hrest, Hprice. rewrite <- Hh1 in Hhigh.
    destruct (IH st1 price Hconfig Hlow Hhigh Hd1 Hn1 Hlast1 Hprice Hrest)
      as (logs & st' & -> & Hlogs).
    eexists _, _. split; [reflexivity|]. constructor; [reflexivity|exact Hlogs].
Qed.

(** X11. While the configuration is unchanged and the price stays at or
    below the low threshold, only the first sample can notify: it sends
    "reached low" or nothing, and every later cycle sends no text at all,
    however long the price stays there. *)
Theorem no_repeat_while_below file config st prices :
  load_monitoring_config file !! token_name = Some config ->
  default 0 (cfg_low config) == low_threshold st ->
  default 0 (cfg_high config) == high_threshold st ->
  Forall (fun price => price <= low_threshold st) prices ->
  exists logs st',
    while_true token_name chat_id info st (map (steady file) prices) = (logs, Running st')
    /\ (forall log, logs !! 0%nat = Some log ->
          notifications log = [] \/ notifications log = [ReachedLow token_name])
    /\ (forall i log, logs !! S i = Some log -> sent log = []).
Proof.
  intros Hconfig Hlow Hhigh Hall.
  destruct prices as [|price rest].
  - eexists _, _. split; [reflexivity|]. split; intros; discriminate.
  - apply Forall_cons in Hall as [Hprice Hrest].
    destruct (below_low_latched (steady file price) st price (fun _ => eq_refl) Hprice)
      as (log & st1 & Hquote & Hl1 & Hh1 & Hd1 & Hn1 & Hlast1 & Hfirst & _).
    cbn [map]. rewrite (steady_cycle token_name chat_id info _ _ _ _ _ _ (map (steady file) rest)
                          Hconfig Hlow Hhigh Hquote).
    rewrite <- Hl1 in Hlow, Hrest, Hprice. rewrite <- Hh1 in Hhigh.
    destruct (latched_run_is_quiet file config rest st1 price
                Hconfig Hlow Hhigh Hd1 Hn1 Hlast1 Hprice Hrest) as (logs & st' & -> & Hlogs).
    eexists _, _. split; [reflexivity|]. split.
    + intros log0 [= <-]. unfold notifications, sent in *. simpl.
      rewrite !flat_map_app. simpl. rewrite app_nil_r. exact Hfirst.
    + intros i log0 Hi. simpl in Hi.
      rewrite Forall_forall in Hlogs. apply Hlogs.
      apply (list_elem_of_lookup_2 _ i). exact Hi.
Qed.


(** X13. A task cancelled while it sleeps ends there: the configuration
    is not read again, no error text is sent, the loop is reported
    cancelled, and no later cycle is entered. *)
Theorem cancelled_in_sleep env st log st1 rest :
  evaluate token_name chat_id info env st = (log, Ok st1) ->
  cancel_requested env = true ->
  while_true token_name chat_id info st (env :: rest) = ([log ++ [Sleep 8]], Cancelled).
Proof.
  intros Heval Hcancel.
  cbn [while_true]. rewrite iteration_unfold, Heval, Hcancel.
  unfold on_exception. simpl. rewrite app_nil_r. reflexivity.
Qed.

End TrackerProperties.

(** ** More on registration *)

Section RegistrationProperties.

Variable float_of_string : string -> option float.

(** The four ways a message is answered. *)
Lemma handle_message_outcome text chat_id b :
  exists r,
    replies (handle_message float_of_string text chat_id b) = replies b ++ [r]
    /\ token_mapping_file (handle_message float_of_string text chat_id b)
       = token_mapping_file b
    /\ match r with
       | Monitoring name low high =>
           parse_command float_of_string text
             = Some {| token_name := name; low := low; high := high |}
           /\ low < high
           /\ is_Some (load_token_mapping (token_mapping_file b) !! name)
           /\ load_monitoring_config
                (monitoring_file (handle_message float_of_string text chat_id b)) !! name
              = Some {| cfg_low := Some low; cfg_high := Some high;
                        cfg_chat_id := Some chat_id |}
           /\ created (handle_message float_of_string text chat_id b)
              = created b ++ [(name, chat_id)]
       | _ => handle_message float_of_string text chat_id b = reply_text r b
       end.
Proof.
  unfold handle_message.
  destruct (parse_command float_of_string text) as [[name low high]|];
    [|exists InvalidFormat; auto].
  simpl.
  destruct (Qle_bool high low) eqn:Hband; [exists LowMustBeLess; auto|].
  apply le_false in Hband.
  destruct (bool_decide _) eqn:Hmapped; [exists (NotInMapping name); auto|].
  apply bool_decide_eq_false in Hmapped.
  exists (Monitoring name low high).
  destruct (monitoring_tasks b !! name) as [handle|]; simpl;
    rewrite lookup_insert_eq;
    repeat split; auto; by apply not_eq_None_Some.
Qed.

(** X15. Every message gets exactly one reply and the token mapping is
    never written. If the reply is not "Monitoring ...", nothing else
    changed. If it is, the command parsed to a band with low < high on a
    mapped token, its entry is in monitoring.json under the lower-case name
    with the chat it came from, and one task was created for it. *)
Theorem one_reply_per_message text chat_id b :
  exists r,
    replies (handle_message float_of_string text chat_id b) = replies b ++ [r]
    /\ token_mapping_file (handle_message float_of_string text chat_id b)
       = token_mapping_file b
    /\ match r with
       | Monitoring name low high =>
           parse_command float_of_string text
             = Some {| token_name := name; low := low; high := high |}
           /\ low < high
           /\ is_Some (load_token_mapping (token_mapping_file b) !! name)
           /\ load_monitoring_config
                (monitoring_file (handle_message float_of_string text chat_id b)) !! name
              = Some {| cfg_low := Some low; cfg_high := Some high;
                        cfg_chat_id := Some chat_id |}
           /\ created (handle_message float_of_string text chat_id b)
              = created b ++ [(name, chat_id)]
       | _ => handle_message float_of_string text chat_id b = reply_text r b
       end.
Proof. exact (handle_message_outcome text chat_id b). Qed.

(** What an accepted command does, step by step. *)
Lemma accepted_command text chat_id b parsed :
  parse_command float_of_string text = Some parsed ->
  low parsed < high parsed ->
  is_Some (load_token_mapping (token_mapping_file b) !! token_name parsed) ->
  handle_message float_of_string text chat_id b
  = {| token_mapping_file := token_mapping_file b;
       monitoring_file :=
         Some (<[token_name parsed :=
                   {| cfg_low := Some (low parsed); cfg_high := Some (high parsed);
                      cfg_chat_id := Some chat_id |}]>
                 (load_monitoring_config (monitoring_file b)));
       monitoring_tasks := <[token_name parsed := length (created b)]> (monitoring_tasks b);
       created := created b ++ [(token_name parsed, chat_id)];
       cancelled := cancelled b ++ option_list (monitoring_tasks b !! token_name parsed);
       replies := replies b ++ [Monitoring (token_name parsed) (low parsed) (high parsed)] |}.
Proof.
  intros Hparse Hband Hmapped. unfold handle_message. rewrite Hparse.
  apply le_false in Hband. rewrite Hband.
  rewrite bool_decide_eq_false_2 by (by apply not_eq_None_Some).
  simpl. destruct (monitoring_tasks b !! token_name parsed); simpl;
    rewrite ?app_nil_r; reflexivity.
Qed.

(** X16. Registering a band replaces the band of that symbol only and
    supersedes its task only: the entries and the registered tasks of other
    symbols are as before, the task the symbol had is cancelled, no other
    task is, and the registry holds the new task. *)
Theorem registration_is_local text chat_id b parsed :
  parse_command float_of_string text = Some parsed ->
  low parsed < high parsed ->
  is_Some (load_token_mapping (token_mapping_file b) !! token_name parsed) ->
  let b' := handle_message float_of_string text chat_id b in
  (forall other, other <> token_name parsed ->
     load_monitoring_config (monitoring_file b') !! other
       = load_monitoring_config (monitoring_file b) !! other
     /\ monitoring_tasks b' !! other = monitoring_tasks b !! other)
  /\ monitoring_tasks b' !! token_name parsed = Some (length (created b))
  /\ created b' !! length (created b) = Some (token_name parsed, chat_id)
  /\ cancelled b'
     = cancelled b ++ option_list (monitoring_tasks b !! token_name parsed).
Proof.
  intros Hparse Hband Hmapped b'. subst b'.
  rewrite (accepted_command text chat_id b parsed Hparse Hband Hmapped). simpl.
  split; [|split; [|split]].
  - intros other Hother. rewrite !lookup_insert_ne by done. done.
  - apply lookup_insert_eq.
  - rewrite lookup_app_r by lia. rewrite Nat.sub_diag. reflexivity.
  - reflexivity.
Qed.

(** A message keeps the registry in step with the tasks. *)
Lemma handle_message_tracks text chat_id b :
  registry_tracks_tasks b ->
  registry_tracks_tasks (handle_message float_of_string text chat_id b).
Proof.
  intros Htracks.
  destruct (handle_message_outcome text chat_id b) as (r & _ & _ & Hr).
  destruct r as [| |name|name low high]; try (rewrite Hr; exact Htracks).
  destruct Hr as (Hparse & Hband & Hmapped & _).
  rewrite (accepted_command text chat_id b _ Hparse Hband Hmapped). simpl.
  intros handle name' chat' Hcreated. simpl in *.
  destruct (decide (handle < length (created b))%nat) as [Hold|Hnew].
  - rewrite lookup_app_l in Hcreated by done.
    destruct (Htracks handle name' chat' Hcreated) as [Hcancelled|Hregistered].
    + left. apply elem_of_app. by left.
    + destruct (decide (name' = name)) as [->|Hother].
      * left. rewrite Hregistered. simpl. apply elem_of_app. right. by left.
      * right. by rewrite lookup_insert_ne.
  - right. rewrite lookup_app_r in Hcreated by lia.
    destruct (handle - length (created b))%nat as [|k] eqn:Hk; [|done].
    injection Hcreated as <- <-.
    rewrite lookup_insert_eq. f_equal. lia.
Qed.

Lemma handle_messages_tracks messages : forall b,
  registry_tracks_tasks b ->
  registry_tracks_tasks (handle_messages float_of_string messages b).
Proof.
  induction messages as [|[text chat_id] rest IH]; intros b Htracks; [exact Htracks|].
  apply IH, handle_message_tracks, Htracks.
Qed.

(** If the registry tracks the tasks, a symbol has at most one task that
    was never cancelled. *)
Lemma tracked_tasks_are_single b name :
  registry_tracks_tasks b -> (length (live_tasks name b) <= 1)%nat.
Proof.
  intros Htracks. unfold live_tasks.
  assert (Hsame : forall handle, In handle (List.filter (is_live name b) (seq 0 (length (created b)))) ->
                                 monitoring_tasks b !! name = Some handle).
  { intros handle [_ Hlive]%filter_In. unfold is_live in Hlive.
    destruct (created b !! handle) as [[name' chat']|] eqn:Hcreated; [|done].
    apply andb_prop in Hlive as [Hname Hnot]. apply String.eqb_eq in Hname as ->.
    destruct (Htracks handle name chat' Hcreated) as [Hcancelled|Hregistered]; [|done].
    apply negb_true_iff, bool_decide_eq_false in Hnot. done. }
  assert (Hnodup : List.NoDup (List.filter (is_live name b) (seq 0 (length (created b)))))
    by apply List.NoDup_filter, List.seq_NoDup.
  destruct (List.filter _ _) as [|h1 [|h2 tail]]; simpl; [lia|lia|].
  exfalso.
  pose proof (Hsame h1 (or_introl eq_refl)) as H1.
  pose proof (Hsame h2 (or_intror (or_introl eq_refl))) as H2.
  rewrite H1 in H2. injection H2 as <-.
  inversion Hnodup as [|? ? Hnotin _]. apply Hnotin. by left.
Qed.

(** X17. Whatever messages arrive, in whatever order, a symbol never has
    more than one task that was not cancelled: each registration cancels
    the task it supersedes. *)
Theorem one_live_task_per_symbol messages b name :
  registry_tracks_tasks b ->
  (length (live_tasks name (handle_messages float_of_string messages b)) <= 1)%nat.
Proof.
  intros Htracks. apply tracked_tasks_are_single, handle_messages_tracks, Htracks.
Qed.

(** X18. The bands in monitoring.json stay in order: if every entry has
    low < high, every entry still has after any sequence of messages. *)
Theorem bands_stay_in_order messages : forall b,
  bands_in_order (monitoring_file b) ->
  bands_in_order (monitoring_file (handle_messages float_of_string messages b)).
Proof.
  induction messages as [|[text chat_id] rest IH]; intros b Hfile; [exact Hfile|].
  apply IH. clear IH. simpl.
  destruct (handle_message_outcome text chat_id b) as (r & _ & _ & Hr).
  destruct r as [| |name|name low high]; try (rewrite Hr; exact Hfile).
  destruct Hr as (Hparse & Hband & Hmapped & _).
  rewrite (accepted_command text chat_id b _ Hparse Hband Hmapped). simpl.
  intros name' entry. simpl.
  destruct (decide (name' = name)) as [->|Hother].
  - rewrite lookup_insert_eq. intros [= <-]. simpl. eauto.
  - rewrite lookup_insert_ne by done. apply Hfile.
Qed.

(** X19. The task a registration creates runs on the band it registered:
    started on the files the handler left, [monitor_token] finds the token,
    takes [low] and [high] of the command as thresholds and starts with the
    price not displayed, no last price and both latches open. *)
Theorem registered_band_is_monitored text chat_id b parsed info envs :
  parse_command float_of_string text = Some parsed ->
  low parsed < high parsed ->
  load_token_mapping (token_mapping_file b) !! token_name parsed = Some info ->
  let b' := handle_message float_of_string text chat_id b in
  last (created b') = Some (token_name parsed, chat_id)
  /\ monitor_token (token_mapping_file b') (monitoring_file b')
       (token_name parsed) chat_id envs
     = Ok (while_true (token_name parsed) chat_id info
             {| low_threshold := low parsed; high_threshold := high parsed;
                price_displayed := false; last_price := None;
                low_notified := false; high_notified := false;
                last_prices_entry := None |}
             envs).
Proof.
  intros Hparse Hband Hmapped b'. subst b'.
  rewrite (accepted_command text chat_id b parsed Hparse Hband) by (rewrite Hmapped; eauto).
  simpl. split; [apply last_snoc|].
  unfold monitor_token. simpl. rewrite Hmapped.
  unfold initial_state. simpl. rewrite lookup_insert_eq. reflexivity.
Qed.

End RegistrationProperties.

(** ** parse_command *)

Lemma space_not_word c : is_space c = true -> is_word c = false.
Proof. destruct c as [[] [] [] [] [] [] [] []]; vm_compute; congruence. Qed.

Lemma space_not_number c : is_space c = true -> is_number_char c = false.
Proof. destruct c as [[] [] [] [] [] [] [] []]; vm_compute; congruence. Qed.

Lemma lower_keeps_word c : is_word (lower_ascii c) = is_word c.
Proof. destruct c as [[] [] [] [] [] [] [] []]; reflexivity. Qed.

Lemma span_append cls run tail :
  all_in cls run = true -> starts_outside cls tail ->
  span cls (run +:+ tail) = (run, tail).
Proof.
  intros Hrun Htail. induction run as [|c run IH]; simpl in *.
  - destruct tail as [|c tail]; [reflexivity|]. simpl in *. rewrite Htail. reflexivity.
  - apply andb_prop in Hrun as [Hc Hrun]. rewrite Hc, (IH Hrun). reflexivity.
Qed.

Lemma plus_append cls run tail :
  run <> EmptyString -> all_in cls run = true -> starts_outside cls tail ->
  plus cls (run +:+ tail) = Some (run, tail).
Proof.
  intros Hne Hrun Htail. unfold plus. rewrite (span_append cls run tail Hrun Htail).
  destruct run; [done|reflexivity].
Qed.

Lemma span_run cls s : all_in cls (fst (span cls s)) = true.
Proof.
  induction s as [|c rest IH]; [reflexivity|]. simpl.
  destruct (cls c) eqn:Hc; [|reflexivity].
  destruct (span cls rest) as [run tail]. simpl in *. rewrite Hc, IH. reflexivity.
Qed.

Lemma lstrip_spaces pad s : all_in is_space pad = true -> lstrip (pad +:+ s) = lstrip s.
Proof.
  induction pad as [|c pad IH]; [reflexivity|]. simpl.
  intros [Hc Hpad]%andb_prop. rewrite Hc. auto.
Qed.

Lemma rstrip_spaces_only pad : all_in is_space pad = true -> rstrip pad = EmptyString.
Proof.
  induction pad as [|c pad IH]; [reflexivity|]. simpl.
  intros [Hc Hpad]%andb_prop. rewrite (IH Hpad), Hc. reflexivity.
Qed.

Lemma rstrip_spaces s pad : all_in is_space pad = true -> rstrip (s +:+ pad) = rstrip s.
Proof.
  intros Hpad. induction s as [|c s IH]; simpl.
  - apply rstrip_spaces_only, Hpad.
  - rewrite IH. reflexivity.
Qed.

Lemma strip_spaces pad1 s pad2 :
  all_in is_space pad1 = true -> all_in is_space pad2 = true ->
  strip (pad1 +:+ s +:+ pad2) = strip s.
Proof.
  intros H1 H2. unfold strip. rewrite (lstrip_spaces pad1 _ H1).
  induction s as [|c s IH]; simpl.
  - change (EmptyString +:+ pad2) with pad2.
    assert (lstrip pad2 = EmptyString) as ->; [|reflexivity].
    clear -H2. induction pad2 as [|c pad IH]; [reflexivity|]. simpl in *.
    apply andb_prop in H2 as [Hc Hpad]. rewrite Hc. auto.
  - destruct (is_space c); [exact IH|].
    change (String c (s +:+ pad2)) with (String c s +:+ pad2).
    apply rstrip_spaces, H2.
Qed.

(** X20. White space around a command does not matter: padded on either
    side with any white space, a text parses to the same command, or fails
    to parse, as it does bare. *)
Theorem padding_is_ignored float_of_string pad1 text pad2 :
  all_in is_space pad1 = true ->
  all_in is_space pad2 = true ->
  parse_command float_of_string (pad1 +:+ text +:+ pad2)
  = parse_command float_of_string text.
Proof.
  intros H1 H2. unfold parse_command. rewrite (strip_spaces pad1 text pad2 H1 H2).
  reflexivity.
Qed.

Lemma lower_keeps_words s : all_in is_word s = true -> all_in is_word (lower s) = true.
Proof.
  induction s as [|a s IH]; [reflexivity|]. simpl.
  intros [Ha Hs]%andb_prop. rewrite lower_keeps_word, Ha. auto.
Qed.


Lemma number_not_space c : is_number_char c = true -> is_space c = false.
Proof. destruct c as [[] [] [] [] [] [] [] []]; vm_compute; congruence. Qed.

Lemma word_not_space c : is_word c = true -> is_space c = false.
Proof. destruct c as [[] [] [] [] [] [] [] []]; vm_compute; congruence. Qed.

Lemma starts_outside_append cls cls' a b :
  a <> EmptyString -> all_in cls' a = true ->
  (forall c, cls' c = true -> cls c = false) ->
  starts_outside cls (a +:+ b).
Proof.
  intros Hne Ha Hdisjoint. destruct a as [|c a]; [done|]. simpl in *.
  apply andb_prop in Ha as [Hc _]. auto.
Qed.

Lemma span_whole cls s : all_in cls s = true -> span cls s = (s, EmptyString).
Proof.
  induction s as [|c s IH]; [reflexivity|]. simpl.
  intros [Hc Hs]%andb_prop. rewrite Hc, (IH Hs). reflexivity.
Qed.

Lemma rstrip_without_spaces cls s :
  (forall c, cls c = true -> is_space c = false) ->
  all_in cls s = true -> rstrip s = s.
Proof.
  intros Hcls. induction s as [|c s IH]; [reflexivity|]. simpl.
  intros [Hc Hs]%andb_prop. rewrite (IH Hs), (Hcls c Hc). destruct s; reflexivity.
Qed.

Lemma rstrip_keeps_end a b :
  b <> EmptyString -> rstrip b = b -> rstrip (a +:+ b) = a +:+ b.
Proof.
  intros Hne Hb. induction a as [|c a IH]; [exact Hb|].
  change (String c a +:+ b) with (String c (a +:+ b)). simpl. rewrite IH.
  destruct (a +:+ b) eqn:Hab; [|reflexivity].
  destruct a; lazy in Hab; [congruence|discriminate].
Qed.

Lemma append_not_empty a b : b <> EmptyString -> a +:+ b <> EmptyString.
Proof. destruct a; simpl; [auto|discriminate]. Qed.

(** X22. A symbol of letters, digits and underscores, white space, a
    number text, white space and a number text, each not empty, always
    match the pattern: the command parses to the lower-cased symbol and the
    two floats, and fails only if [float] rejects one of the number
    texts. *)
Theorem well_formed_command_parses float_of_string name sep1 lo sep2 hi :
  name <> EmptyString -> all_in is_word name = true ->
  sep1 <> EmptyString -> all_in is_space sep1 = true ->
  lo <> EmptyString -> all_in is_number_char lo = true ->
  sep2 <> EmptyString -> all_in is_space sep2 = true ->
  hi <> EmptyString -> all_in is_number_char hi = true ->
  parse_command float_of_string (name +:+ sep1 +:+ lo +:+ sep2 +:+ hi)
  = match float_of_string lo, float_of_string hi with
    | Some low, Some high =>
        Some {| token_name := lower name; low := low; high := high |}
    | _, _ => None
    end.
Proof.
  intros Hname Wname Hsep1 Wsep1 Hlo Wlo Hsep2 Wsep2 Hhi Whi.
  assert (Hstrip : strip (name +:+ sep1 +:+ lo +:+ sep2 +:+ hi)
                   = name +:+ sep1 +:+ lo +:+ sep2 +:+ hi).
  { unfold strip.
    assert (lstrip (name +:+ sep1 +:+ lo +:+ sep2 +:+ hi)
            = name +:+ sep1 +:+ lo +:+ sep2 +:+ hi) as ->.
    { destruct name as [|c name]; [done|]. simpl in *.
      apply andb_prop in Wname as [Hc _]. rewrite (word_not_space c Hc). reflexivity. }
    repeat (apply rstrip_keeps_end; [repeat apply append_not_empty; assumption|]).
    apply (rstrip_without_spaces is_number_char); [apply number_not_space|exact Whi]. }
  unfold parse_command. rewrite Hstrip. unfold match_pattern.
  rewrite (plus_append is_word name _ Hname Wname)
    by (apply (starts_outside_append _ is_space); auto using space_not_word).
  simpl.
  rewrite (plus_append is_space sep1 _ Hsep1 Wsep1)
    by (apply (starts_outside_append _ is_number_char); auto using number_not_space).
  simpl.
  rewrite (plus_append is_number_char lo _ Hlo Wlo)
    by (apply (starts_outside_append _ is_space); auto using space_not_number).
  simpl.
  assert (Hend : hi = hi +:+ EmptyString).
  { clear. induction hi as [|c hi IH]; [reflexivity|].
    change (String c hi +:+ EmptyString) with (String c (hi +:+ EmptyString)).
    congruence. }
  rewrite Hend at 1.
  rewrite (plus_append is_space sep2 _ Hsep2 Wsep2)
    by (apply (starts_outside_append _ is_number_char); auto using number_not_space).
  simpl.
  rewrite (plus_append is_number_char hi EmptyString Hhi Whi I).
  simpl. reflexivity.
Qed.

(** ** price_command *)

(** X23. An ad-hoc price query always ends with an answer and never with
    an exception. Without an argument it is the usage text, for a symbol
    missing from the mapping the error text, both without any request; for
    a mapped symbol, looked up in lower case, "Fetching" followed by exactly
    one final text. *)
Theorem price_command_answers float_of_string net tokens args :
  (args = [] /\ price_command float_of_string net tokens args = ([], Ok [Usage]))
  \/ (exists first rest,
        args = first :: rest
        /\ load_token_mapping tokens !! lower first = None
        /\ price_command float_of_string net tokens args
           = ([], Ok [NotFound (lower first)]))
  \/ (exists first rest info final,
        args = first :: rest
        /\ load_token_mapping tokens !! lower first = Some info
        /\ price_command float_of_string net tokens args
           = (fst (get_price float_of_string net (address info) (chain info)),
              Ok [Fetching (lower first); final])
        /\ match final with
           | CurrentQuote _ price _ _ _ =>
               snd (get_price float_of_string net (address info) (chain info))
               = Ok (Some price)
           | FetchFailed _ _ =>
               snd (get_price float_of_string net (address info) (chain info)) = Ok None
           | _ => False
           end).
Proof.
  destruct args as [|first rest]; [left; auto|right].
  destruct (load_token_mapping tokens !! lower first) as [info|] eqn:Hmapped.
  - right. exists first, rest, info.
    destruct (get_price_never_raises float_of_string net (address info) (chain info))
      as [price Hprice].
    unfold price_command. rewrite Hmapped. cbv zeta.
    destruct (get_price float_of_string net (address info) (chain info)) as [log r].
    simpl in Hprice. subst r. simpl.
    destruct price as [price|]; simpl; rewrite app_nil_r; eexists;
      (split; [reflexivity|]); (split; [reflexivity|]); (split; [reflexivity|]);
      reflexivity.
  - left. exists first, rest. unfold price_command. rewrite Hmapped. auto.
Qed.

(** ** The further properties on the data of the examples *)

Lemma high_rule_witness :
  exists log st',
    on_quote "kori" 7 (steady kori_file 0.004) 0.004 (initial_state "kori" kori_file)
    = (log, Ok st')
    /\ (In (ReachedHigh "kori") (notifications log)
        <-> high_notified (initial_state "kori" kori_file) = false
            \/ exists previous,
                 last_price (initial_state "kori" kori_file) = Some previous
                 /\ previous < high_threshold (initial_state "kori" kori_file))
    /\ (In (ReachedHigh "kori") (notifications log)
        -> high_notified st' = true /\ low_notified st' = false).
Proof.
  apply (high_rule "kori" 7 kori_info (steady kori_file 0.004)
           (initial_state "kori" kori_file) 0.004).
  - apply reachable_initial.
  - reflexivity.
  - vm_compute. reflexivity.
  - vm_compute. discriminate.
Defined.


Lemma no_repeat_while_below_witness :
  exists logs st',
    while_true "kori" 7 kori_info (initial_state "kori" kori_file)
      (map (steady kori_file) [0.002; 0.002; 0.001; 0.002])
    = (logs, Running st')
    /\ (forall log, logs !! 0%nat = Some log ->
          notifications log = [] \/ notifications log = [ReachedLow "kori"])
    /\ (forall i log, logs !! S i = Some log -> sent log = []).
Proof.
  apply (no_repeat_while_below "kori" 7 kori_info kori_file kori_entry
           (initial_state "kori" kori_file) [0.002; 0.002; 0.001; 0.002]).
  - reflexivity.
  - reflexivity.
  - reflexivity.
  - repeat constructor; vm_compute; discriminate.
Defined.


Lemma cancelled_in_sleep_witness :
  while_true "kori" 7 kori_info (initial_state "kori" kori_file)
    [cancelling kori_file; steady kori_file 0.004]
  = ([[GetPrice (address kori_info) (chain kori_info)] ++ [Sleep 8]], Cancelled).
Proof.
  apply (cancelled_in_sleep "kori" 7 kori_info (cancelling kori_file)
           (initial_state "kori" kori_file)
           [GetPrice (address kori_info) (chain kori_info)]
           (initial_state "kori" kori_file) [steady kori_file 0.004]);
    reflexivity.
Defined.


Lemma registration_is_local_witness :
  let b' := handle_message decimal_literal "kori 0.00237 0.00355" 7 idle_bot in
  (forall other, other <> "kori" ->
     load_monitoring_config (monitoring_file b') !! other
       = load_monitoring_config (monitoring_file idle_bot) !! other
     /\ monitoring_tasks b' !! other = monitoring_tasks idle_bot !! other)
  /\ monitoring_tasks b' !! "kori" = Some (length (created idle_bot))
  /\ created b' !! length (created idle_bot) = Some ("kori", 7%Z)
  /\ cancelled b' = cancelled idle_bot ++ option_list (monitoring_tasks idle_bot !! "kori").
Proof.
  apply (registration_is_local decimal_literal "kori 0.00237 0.00355" 7 idle_bot
           {| token_name := "kori"; low := 0.00237; high := 0.00355 |}).
  - vm_compute. reflexivity.
  - vm_compute. reflexivity.
  - vm_compute. eauto.
Defined.

Lemma one_live_task_per_symbol_witness :
  (length (live_tasks "kori"
             (handle_messages decimal_literal
                [("kori 0.00237 0.00355", 7%Z); ("hello", 7%Z);
                 ("KORI 0.001 0.002", 8%Z); ("kori 0.002 0.001", 7%Z)]
                idle_bot)) <= 1)%nat.
Proof.
  apply (one_live_task_per_symbol decimal_literal
           [("kori 0.00237 0.00355", 7%Z); ("hello", 7%Z);
            ("KORI 0.001 0.002", 8%Z); ("kori 0.002 0.001", 7%Z)]
           idle_bot "kori").
  intros handle name chat_id Hcreated. discriminate.
Defined.

Lemma bands_stay_in_order_witness :
  bands_in_order
    (monitoring_file
       (handle_messages decimal_literal
          [("kori 0.00237 0.00355", 7%Z); ("kori 0.002 0.001", 7%Z)] idle_bot)).
Proof.
  apply (bands_stay_in_order decimal_literal
           [("kori 0.00237 0.00355", 7%Z); ("kori 0.002 0.001", 7%Z)] idle_bot).
  intros name entry Hentry. simpl in Hentry. rewrite lookup_empty in Hentry. discriminate.
Defined.

Lemma registered_band_is_monitored_witness :
  let b' := handle_message decimal_literal "kori 0.00237 0.00355" 7 idle_bot in
  last (created b') = Some ("kori", 7%Z)
  /\ monitor_token (token_mapping_file b') (monitoring_file b') "kori" 7
       [steady kori_file 0.004]
     = Ok (while_true "kori" 7 kori_info
             {| low_threshold := 0.00237; high_threshold := 0.00355;
                price_displayed := false; last_price := None;
                low_notified := false; high_notified := false;
                last_prices_entry := None |}
             [steady kori_file 0.004]).
Proof.
  apply (registered_band_is_monitored decimal_literal "kori 0.00237 0.00355" 7 idle_bot
           {| token_name := "kori"; low := 0.00237; high := 0.00355 |} kori_info
           [steady kori_file 0.004]).
  - vm_compute. reflexivity.
  - vm_compute. reflexivity.
  - reflexivity.
Defined.

Lemma padding_is_ignored_witness :
  parse_command decimal_literal ("   " +:+ "kori 0.00237 0.00355" +:+ "  ")
  = parse_command decimal_literal "kori 0.00237 0.00355".
Proof.
  apply (padding_is_ignored decimal_literal "   " "kori 0.00237 0.00355" "  ");
    reflexivity.
Defined.


Lemma well_formed_command_parses_witness :
  parse_command decimal_literal ("Kori_2" +:+ "  " +:+ "0.00237" +:+ " " +:+ "0.00355")
  = Some {| token_name := lower "Kori_2"; low := 0.00237; high := 0.00355 |}.
Proof.
  apply (well_formed_command_parses decimal_literal "Kori_2" "  " "0.00237" " " "0.00355");
    (discriminate || reflexivity).
Defined.

Lemma price_displayed_at_most_once_witness :
  (length (displays (fst (while_true "kori" 7 kori_info latched_low
                            (map (steady kori_file) [0.004%Q; 0.002%Q])))) <= 1)%nat
  /\ (price_displayed latched_low = true ->
      displays (fst (while_true "kori" 7 kori_info latched_low
                       (map (steady kori_file) [0.004%Q; 0.002%Q]))) = []).
Proof.
  apply (price_displayed_at_most_once "kori" 7 kori_info latched_low
           (map (steady kori_file) [0.004%Q; 0.002%Q])).
Defined.

(** ** Reading payloads *)




(** X27. A notification means the threshold was reached: in any state and
    with any notifier, a cycle sends "reached low" only for a price at or
    below the low threshold, and "reached high" only for a price above the
    low threshold and at or above the high one. *)
Theorem notification_means_threshold_reached token_name chat_id env price st :
  (In (ReachedLow token_name)
      (notifications (fst (on_quote token_name chat_id env price st)))
   -> price <= low_threshold st)
  /\ (In (ReachedHigh token_name)
         (notifications (fst (on_quote token_name chat_id env price st)))
      -> low_threshold st < price /\ high_threshold st <= price).
Proof.
  unfold on_quote, display_once, check_thresholds, send_message.
  split_tests;
    repeat match goal with
           | H : Qle_bool _ _ = true |- _ => apply le_true in H
           | H : Qle_bool _ _ = false |- _ => apply le_false in H
           end;
    split; intros Hin; simpl in Hin;
    repeat (destruct Hin as [Hin|Hin]; try discriminate Hin);
    try done; auto.
Qed.




Lemma notification_means_threshold_reached_witness :
  (In (ReachedLow "kori")
      (notifications (fst (on_quote "kori" 7 (steady kori_file 0.002) 0.002
                             (initial_state "kori" kori_file))))
   -> 0.002 <= low_threshold (initial_state "kori" kori_file))
  /\ (In (ReachedHigh "kori")
         (notifications (fst (on_quote "kori" 7 (steady kori_file 0.002) 0.002
                                (initial_state "kori" kori_file))))
      -> low_threshold (initial_state "kori" kori_file) < 0.002
         /\ high_threshold (initial_state "kori" kori_file) <= 0.002).
Proof.
  apply (notification_means_threshold_reached "kori" 7 (steady kori_file 0.002) 0.002
           (initial_state "kori" kori_file)).
Defined.
